(** * Request execution core of the Crawl4AI TypeScript SDK

    A shallow embedding of [src/errors.ts] and of the request core of
    [src/sdk.ts] (the response normalizer, [request] and
    [requestWithRetry]), together with the properties the specification
    states about them.

    Conventions of the embedding.
    - A JavaScript [number] that holds a status code, a delay or a timeout
      is an integer of [Z]; a number that comes out of [parseInt] is a
      [jsnum], which adds [NaN].  Multiplying by a power of two is exact on
      doubles, so the delays computed here are the ones the code computes
      as long as they stay in the range where doubles are exact.
    - [undefined] is [None].
    - A [Record<string, string>] is a [gmap string string]; a decoded JSON
      object is a [gmap string json].
    - A promise is its outcome: [Returns v], [Throws e], or no outcome at
      all ([None]) when it never settles.
    - [this.log] writes to the console when [debug] is set and does
      nothing else; it is left out. *)

From Stdlib Require Import ZArith String Ascii List Lia DecimalString.
From stdpp Require Import gmap strings list.

#[local] Set Warnings "-register-all".
#[local] Open Scope string_scope.
#[local] Open Scope Z_scope.

(** ** JavaScript values *)

(** A decoded JSON value, what [response.json()] resolves to. *)
Inductive json : Type :=
| JNull
| JBool (b : bool)
| JNum (n : Z)
| JStr (s : string)
| JArr (xs : list json)
| JObj (props : gmap string json).

(** The result of [parseInt]. *)
Inductive jsnum : Type :=
| NaN
| Num (z : Z).

Module Js.

(** ToBoolean on a number: [0] and [NaN] are falsy. *)
Definition truthy_num (n : jsnum) : bool :=
  match n with
  | NaN => false
  | Num z => negb (z =? 0)
  end.

(** ToBoolean on a string: only the empty string is falsy. *)
Definition truthy_str (s : string) : bool :=
  match s with
  | EmptyString => false
  | String _ _ => true
  end.

(** ToBoolean on a JSON value; arrays and objects are always truthy. *)
Definition truthy (v : json) : bool :=
  match v with
  | JNull => false
  | JBool b => b
  | JNum n => negb (n =? 0)
  | JStr s => truthy_str s
  | JArr _ => true
  | JObj _ => true
  end.

(** ToBoolean on the result of a property read, [undefined] is falsy. *)
Definition truthy_opt (v : option json) : bool :=
  match v with
  | None => false
  | Some j => truthy j
  end.

(** [Array.isArray]. *)
Definition isArray (v : json) : bool :=
  match v with
  | JArr _ => true
  | _ => false
  end.

(** [Array.isArray] on the result of a property read. *)
Definition isArray_opt (v : option json) : bool :=
  match v with
  | None => false
  | Some j => isArray j
  end.

(** [typeof v === 'object']: objects, arrays and [null]. *)
Definition typeof_object (v : json) : bool :=
  match v with
  | JNull | JArr _ | JObj _ => true
  | _ => false
  end.

(** [v === null]. *)
Definition is_null (v : json) : bool :=
  match v with
  | JNull => true
  | _ => false
  end.

(** The decimal digit a character stands for. *)
Definition digit_of (c : ascii) : option Z :=
  let n := Z.of_nat (nat_of_ascii c) in
  if (48 <=? n) && (n <=? 57) then Some (n - 48) else None.

(** The string is made of decimal digits. *)
Fixpoint all_digits (s : string) : bool :=
  match s with
  | EmptyString => true
  | String c r => match digit_of c with Some _ => all_digits r | None => false end
  end.

(** The value of the leading decimal digits, continuing from [acc]. *)
Fixpoint digits_value (acc : Z) (s : string) : Z :=
  match s with
  | EmptyString => acc
  | String c r =>
      match digit_of c with
      | Some d => digits_value (10 * acc + d) r
      | None => acc
      end
  end.

(** A canonical array index: ["0"], or digits without a leading zero. *)
Definition array_index (k : string) : option Z :=
  match k with
  | EmptyString => None
  | String c r =>
      if all_digits k && (String.eqb k "0" || negb (Ascii.eqb c "0"))
      then Some (digits_value 0 k) else None
  end.

(** [k in v] for a value that passed the [typeof]/[null] tests.  A
    decoded JSON object has its own keys and inherits nothing named by
    a JSON key used here; an array has ["length"] and its indices. *)
Definition has_property (k : string) (v : json) : bool :=
  match v with
  | JObj props => bool_decide (is_Some (props !! k))
  | JArr xs =>
      String.eqb k "length" ||
      match array_index k with
      | Some i => i <? Z.of_nat (length xs)
      | None => false
      end
  | _ => false
  end.

(** The property read [v.k] on an object; [undefined] when absent. *)
Definition get (k : string) (v : json) : option json :=
  match v with
  | JObj props => props !! k
  | _ => None
  end.

(** Leading white space that [parseInt] skips. *)
Definition is_space (c : ascii) : bool :=
  let n := nat_of_ascii c in
  (Nat.eqb n 32 || (Nat.leb 9 n && Nat.leb n 13))%bool.

Fixpoint skip_spaces (s : string) : string :=
  match s with
  | EmptyString => EmptyString
  | String c r => if is_space c then skip_spaces r else s
  end.

(** The digits [parseInt] reads: the longest prefix of decimal digits,
    [NaN] when that prefix is empty. *)
Definition leading_digits (s : string) : jsnum :=
  match s with
  | EmptyString => NaN
  | String c _ =>
      match digit_of c with
      | Some _ => Num (digits_value 0 s)
      | None => NaN
      end
  end.

(** Unary minus; [-NaN] is [NaN]. *)
Definition negate (n : jsnum) : jsnum :=
  match n with
  | NaN => NaN
  | Num z => Num (- z)
  end.

(** [parseInt(s, 10)]. *)
Definition parseInt (s : string) : jsnum :=
  match skip_spaces s with
  | String "-" r => negate (leading_digits r)
  | String "+" r => leading_digits r
  | t => leading_digits t
  end.

(** Number to string, as in a template literal. *)
Definition toString (z : Z) : string :=
  NilZero.string_of_int (Z.to_int z).

(** [s.includes(sub)]. *)
Fixpoint includes (s sub : string) : bool :=
  String.prefix sub s ||
  match s with
  | EmptyString => false
  | String _ r => includes r sub
  end.

End Js.

(** ** Response normalizer ([src/sdk.ts], lines 38-46 and 196-214) *)

(** [isApiArrayResponse]. *)
Definition isApiArrayResponse (value : json) : bool :=
  Js.typeof_object value && negb (Js.is_null value) &&
  (Js.has_property "results" value || Js.has_property "result" value).

(** [normalizeArrayResponse]. *)
Definition normalizeArrayResponse (response : json) : json :=
  if Js.isArray response then response
  else if isApiArrayResponse response then
    if Js.truthy_opt (Js.get "results" response) &&
       Js.isArray_opt (Js.get "results" response)
    then default JNull (Js.get "results" response)
    else if Js.truthy_opt (Js.get "result" response) &&
            Js.isArray_opt (Js.get "result" response)
    then default JNull (Js.get "result" response)
    else JArr [response]
  else JArr [response].

(** The priority rule as the specification words it. *)
Definition normalize_rule (v : json) : json :=
  match v with
  | JArr _ => v
  | JObj props =>
      match props !! "results" with
      | Some (JArr rs) => JArr rs
      | _ =>
          match props !! "result" with
          | Some (JArr rs) => JArr rs
          | _ => JArr [v]
          end
      end
  | _ => JArr [v]
  end.


(** ** Error taxonomy ([src/errors.ts]) *)

(** The classes an error thrown inside the core can belong to: the
    taxonomy of [src/errors.ts] and the built-in classes the runtime
    throws. *)
Inductive ErrorClass : Type :=
| C_Error
| C_TypeError
| C_SyntaxError
| C_DOMException
| C_Crawl4AIError
| C_NetworkError
| C_TimeoutError
| C_RequestValidationError
| C_RateLimitError
| C_AuthError
| C_ServerError
| C_NotFoundError
| C_ParseError.

#[global] Instance ErrorClass_eq_dec : EqDecision ErrorClass.
Proof. solve_decision. Defined.

(** The [extends] clause of each class. *)
Definition extends (c : ErrorClass) : option ErrorClass :=
  match c with
  | C_Error => None
  | C_TypeError | C_SyntaxError | C_DOMException => Some C_Error
  | C_Crawl4AIError => Some C_Error
  | C_NetworkError => Some C_Crawl4AIError
  | C_TimeoutError => Some C_NetworkError
  | C_RequestValidationError | C_RateLimitError | C_AuthError
  | C_ServerError | C_NotFoundError | C_ParseError => Some C_Crawl4AIError
  end.

(** Walk up the prototype chain; the chain is at most four classes long. *)
Fixpoint derives_from (depth : nat) (c d : ErrorClass) : bool :=
  bool_decide (c = d) ||
  match depth with
  | O => false
  | S depth' =>
      match extends c with
      | Some p => derives_from depth' p d
      | None => false
      end
  end.

(** What a response body decodes to: [response.json()] or [response.text()]. *)
Inductive ResponseData : Type :=
| DJson (j : json)
| DText (s : string).

(** The request descriptor attached to an HTTP error. *)
Record RequestInfo : Type := {
  req_url : string;
  req_method : string;
  req_headers : gmap string string;
  req_body : option string
}.

(** The fields a subclass adds to the base error. *)
Inductive OwnFields : Type :=
| OwnNone
| OwnTimeout (timeout : Z)
| OwnValidation (field : option string) (value : option json)
| OwnRateLimit (retryAfter limit remaining reset : option jsnum)
| OwnNotFound (resource : option string)
| OwnParse (responseText : option string).

Module Err.

(** An error object. *)
Inductive t : Type := mk {
  cls : ErrorClass;
  name : string;
  message : string;
  status : option Z;
  statusText : option string;
  data : option ResponseData;
  request : option RequestInfo;
  cause : option t;
  own : OwnFields
}.

(** [e instanceof C]. *)
Definition instanceof (e : t) (c : ErrorClass) : bool :=
  derives_from 4 (cls e) c.

(** [e.retryAfter], defined on rate-limit errors only. *)
Definition retryAfter (e : t) : option jsnum :=
  match own e with
  | OwnRateLimit r _ _ _ => r
  | _ => None
  end.

(** [e.timeout], defined on timeout errors only. *)
Definition timeout (e : t) : option Z :=
  match own e with
  | OwnTimeout ms => Some ms
  | _ => None
  end.

(** [e.request = info]. *)
Definition set_request (info : RequestInfo) (e : t) : t :=
  {| cls := cls e; name := name e; message := message e;
     status := status e; statusText := statusText e; data := data e;
     request := Some info; cause := cause e; own := own e |}.

End Err.

(** [new Error(message)] and the built-in errors of the runtime. *)
Definition BuiltinError (c : ErrorClass) (name message : string) : Err.t :=
  {| Err.cls := c; Err.name := name; Err.message := message;
     Err.status := None; Err.statusText := None; Err.data := None;
     Err.request := None; Err.cause := None; Err.own := OwnNone |}.

(** [new Crawl4AIError(message, status?, statusText?, data?)]. *)
Definition Crawl4AIError (message : string) (status : option Z)
    (statusText : option string) (data : option ResponseData) : Err.t :=
  {| Err.cls := C_Crawl4AIError; Err.name := "Crawl4AIError";
     Err.message := message;
     Err.status := status; Err.statusText := statusText; Err.data := data;
     Err.request := None; Err.cause := None; Err.own := OwnNone |}.

(** [new NetworkError(message, cause?)]. *)
Definition NetworkError (message : string) (cause : option Err.t) : Err.t :=
  {| Err.cls := C_NetworkError; Err.name := "NetworkError";
     Err.message := message;
     Err.status := None; Err.statusText := None; Err.data := None;
     Err.request := None; Err.cause := cause; Err.own := OwnNone |}.

(** [new TimeoutError(timeout, url?)]. *)
Definition TimeoutError (timeout : Z) (url : option string) : Err.t :=
  let message :=
    match url with
    | Some u =>
        if Js.truthy_str u
        then "Request to " +:+ u +:+ " timed out after " +:+ Js.toString timeout +:+ "ms"
        else "Request timed out after " +:+ Js.toString timeout +:+ "ms"
    | None => "Request timed out after " +:+ Js.toString timeout +:+ "ms"
    end in
  {| Err.cls := C_TimeoutError; Err.name := "TimeoutError";
     Err.message := message;
     Err.status := None; Err.statusText := None; Err.data := None;
     Err.request := None; Err.cause := None; Err.own := OwnTimeout timeout |}.

(** [new RequestValidationError(message, field?, value?)]. *)
Definition RequestValidationError (message : string) (field : option string)
    (value : option json) : Err.t :=
  {| Err.cls := C_RequestValidationError; Err.name := "RequestValidationError";
     Err.message := message;
     Err.status := Some 400; Err.statusText := Some "Bad Request";
     Err.data := None;
     Err.request := None; Err.cause := None;
     Err.own := OwnValidation field value |}.

(** A header read under a truthiness test: [headers[k]] when it is a
    non-empty string. *)
Definition truthy_header (headers : gmap string string) (k : string)
    : option string :=
  match headers !! k with
  | Some v => if Js.truthy_str v then Some v else None
  | None => None
  end.

(** [new Date(n * 1000)] as the milliseconds it holds. *)
Definition seconds_to_date (n : jsnum) : jsnum :=
  match n with
  | NaN => NaN
  | Num z => Num (z * 1000)
  end.

(** [new RateLimitError(message, retryAfter?, headers?)]. *)
Definition RateLimitError (message : string) (retryAfter : option jsnum)
    (headers : option (gmap string string)) : Err.t :=
  let quota (k : string) : option jsnum :=
    match headers with
    | Some h => Js.parseInt <$> truthy_header h k
    | None => None
    end in
  {| Err.cls := C_RateLimitError; Err.name := "RateLimitError";
     Err.message := message;
     Err.status := Some 429; Err.statusText := Some "Too Many Requests";
     Err.data := None;
     Err.request := None; Err.cause := None;
     Err.own := OwnRateLimit retryAfter
                  (quota "x-ratelimit-limit")
                  (quota "x-ratelimit-remaining")
                  (seconds_to_date <$> quota "x-ratelimit-reset") |}.

(** [new AuthError(message = 'Authentication failed', status = 401)]. *)
Definition AuthError (message : option string) (status : option Z) : Err.t :=
  let st := default 401 status in
  {| Err.cls := C_AuthError; Err.name := "AuthError";
     Err.message := default "Authentication failed" message;
     Err.status := Some st;
     Err.statusText := Some (if st =? 401 then "Unauthorized" else "Forbidden");
     Err.data := None;
     Err.request := None; Err.cause := None; Err.own := OwnNone |}.

(** [new ServerError(message = 'Internal server error', status = 500,
    statusText?)]. *)
Definition ServerError (message : option string) (status : option Z)
    (statusText : option string) : Err.t :=
  let text :=
    match statusText with
    | Some s => if Js.truthy_str s then s else "Internal Server Error"
    | None => "Internal Server Error"
    end in
  {| Err.cls := C_ServerError; Err.name := "ServerError";
     Err.message := default "Internal server error" message;
     Err.status := Some (default 500 status);
     Err.statusText := Some text;
     Err.data := None;
     Err.request := None; Err.cause := None; Err.own := OwnNone |}.

(** [new NotFoundError(resource?)]. *)
Definition NotFoundError (resource : option string) : Err.t :=
  let named :=
    match resource with
    | Some r => if Js.truthy_str r then Some r else None
    | None => None
    end in
  {| Err.cls := C_NotFoundError; Err.name := "NotFoundError";
     Err.message :=
       match named with
       | Some r => "Resource not found: " +:+ r
       | None => "Resource not found"
       end;
     Err.status := Some 404; Err.statusText := Some "Not Found";
     Err.data := None;
     Err.request := None; Err.cause := None; Err.own := OwnNotFound named |}.

(** [new ParseError(message, responseText?)]. *)
Definition ParseError (message : string) (responseText : option string) : Err.t :=
  {| Err.cls := C_ParseError; Err.name := "ParseError";
     Err.message := message;
     Err.status := None; Err.statusText := None; Err.data := None;
     Err.request := None; Err.cause := None;
     Err.own := OwnParse
       (match responseText with
        | Some r => if Js.truthy_str r then Some r else None
        | None => None
        end) |}.

(** [createHttpError(status, statusText, message?, data?, headers?)]. *)
Definition createHttpError (status : Z) (statusText : string)
    (message : option string) (data : option ResponseData)
    (headers : option (gmap string string)) : Err.t :=
  let errorMessage :=
    match message with
    | Some m =>
        if Js.truthy_str m then m
        else "HTTP " +:+ Js.toString status +:+ ": " +:+ statusText
    | None => "HTTP " +:+ Js.toString status +:+ ": " +:+ statusText
    end in
  if status =? 400 then RequestValidationError errorMessage None None
  else if status =? 401 then AuthError (Some errorMessage) (Some 401)
  else if status =? 403 then AuthError (Some errorMessage) (Some 403)
  else if status =? 404 then NotFoundError None
  else if status =? 429 then
    let retryAfter :=
      match headers with
      | Some h => Js.parseInt <$> truthy_header h "retry-after"
      | None => None
      end in
    RateLimitError errorMessage retryAfter headers
  else if (status =? 500) || (status =? 502) || (status =? 503) || (status =? 504)
  then ServerError (Some errorMessage) (Some status) (Some statusText)
  else Crawl4AIError errorMessage (Some status) (Some statusText) data.

(** The kinds of the specification's taxonomy, read off the class. *)
Inductive Kind : Type :=
| Network | Timeout | Validation | Auth | NotFound | RateLimit | Server
| Parse | Generic.

(** The kind of a classified error; an error outside the taxonomy has none. *)
Definition kind_of (e : Err.t) : option Kind :=
  match Err.cls e with
  | C_Crawl4AIError => Some Generic
  | C_NetworkError => Some Network
  | C_TimeoutError => Some Timeout
  | C_RequestValidationError => Some Validation
  | C_RateLimitError => Some RateLimit
  | C_AuthError => Some Auth
  | C_ServerError => Some Server
  | C_NotFoundError => Some NotFound
  | C_ParseError => Some Parse
  | C_Error | C_TypeError | C_SyntaxError | C_DOMException => None
  end.

(** ** The client and one HTTP exchange ([src/sdk.ts], lines 28-36, 78) *)

Definition DEFAULT_TIMEOUT : Z := 300000.
Definition DEFAULT_RETRIES : nat := 3.
Definition DEFAULT_RETRY_DELAY : Z := 1000.
Definition RETRY_BACKOFF_MULTIPLIER : Z := 2.
Definition CLIENT_ERROR_MIN : Z := 400.
Definition CLIENT_ERROR_MAX : Z := 500.
Definition RATE_LIMIT_STATUS : Z := 429.

Module Config.

(** [Required<Crawl4AIConfig>], the [config] field of the client.  The
    constructor rejects a [retries] that is negative or not an integer,
    hence [nat]. *)
Record t : Type := mk {
  baseUrl : string;
  apiToken : string;
  timeout : Z;
  retries : nat;
  retryDelay : Z;
  defaultHeaders : gmap string string;
  throwOnError : bool;
  validateStatus : Z -> bool;
  debug : bool
}.

End Config.

(** The defaults the constructor merges under the caller's configuration. *)
Definition defaults (baseUrl : string) : Config.t :=
  {| Config.baseUrl := baseUrl;
     Config.apiToken := "";
     Config.timeout := DEFAULT_TIMEOUT;
     Config.retries := DEFAULT_RETRIES;
     Config.retryDelay := DEFAULT_RETRY_DELAY;
     Config.defaultHeaders := {[ "Content-Type" := "application/json" ]};
     Config.throwOnError := true;
     Config.validateStatus := fun status => status <? CLIENT_ERROR_MIN;
     Config.debug := false |}.

(** An [AbortSignal]: the time, in milliseconds after the request starts,
    at which it fires, if it ever does. *)
Record AbortSignal : Type := { aborts_at : option Z }.

Module Options.

(** [RequestInit & RequestConfig], the fields the core reads. *)
Record t : Type := mk {
  method : option string;
  body : option string;
  headers : option (gmap string string);
  timeout : option Z;
  signal : option AbortSignal
}.

(** [{}], the default of the [options] parameter. *)
Definition empty : t :=
  {| method := None; body := None; headers := None;
     timeout := None; signal := None |}.

End Options.

Module Resp.

(** A [Response].  [headers] has lower-case names, as the [Headers]
    object of the runtime has; [text] is what [response.text()] resolves
    to and [parsed] what [response.json()] resolves to, [None] when it
    rejects because the body is not JSON. *)
Record t : Type := mk {
  status : Z;
  statusText : string;
  headers : gmap string string;
  text : string;
  parsed : option json
}.

End Resp.

(** How the network settles one [fetch]. *)
Inductive Settled : Type :=
| Resolves (response : Resp.t)
| Rejects (error : Err.t).

(** The network during one attempt: the fetch settles some milliseconds
    after it starts, or never. *)
Inductive Exchange : Type :=
| Never
| Settles (at_ms : Z) (s : Settled).

(** The [DOMException] an aborted [fetch] rejects with. *)
Definition AbortError : Err.t :=
  BuiltinError C_DOMException "AbortError" "The operation was aborted.".

(** The [SyntaxError] of [response.json()] on a body that is not JSON. *)
Definition JsonSyntaxError : Err.t :=
  BuiltinError C_SyntaxError "SyntaxError" "Unexpected token in JSON".

(** [fetch(url, { signal })] as the runtime behaves: the signal aborts
    the request when it fires no later than the network settles. *)
Definition fetch (net : Exchange) (signal : AbortSignal) : option Settled :=
  match aborts_at signal, net with
  | Some ta, Settles tn s => Some (if ta <=? tn then Rejects AbortError else s)
  | Some _, Never => Some (Rejects AbortError)
  | None, Settles _ s => Some s
  | None, Never => None
  end.

(** A value a call can resolve to.  The core itself resolves to decoded
    data or to the raw response; an error object is a value too. *)
Inductive value : Type :=
| VData (d : ResponseData)
| VResponse (r : Resp.t)
| VError (e : Err.t).

(** A settled promise. *)
Inductive Outcome : Type :=
| Returns (v : value)
| Throws (e : Err.t).

(** ** [request] ([src/sdk.ts], lines 231-319) *)

(** [`${this.config.baseUrl}${endpoint}`]. *)
Definition request_url (this : Config.t) (endpoint : string) : string :=
  Config.baseUrl this +:+ endpoint.

(** The [timeout] of the destructuring, with its default. *)
Definition request_timeout (this : Config.t) (options : Options.t) : Z :=
  default (Config.timeout this) (Options.timeout options).

(** [{ ...this.config.defaultHeaders, ...headers }]: the caller wins. *)
Definition requestHeaders (this : Config.t) (options : Options.t)
    : gmap string string :=
  default ∅ (Options.headers options) ∪ Config.defaultHeaders this.

(** [controller.signal]: [setTimeout(() => controller.abort(), timeout)]
    fires it after [timeout] milliseconds, at once when that is negative. *)
Definition controller_signal (timeout : Z) : AbortSignal :=
  {| aborts_at := Some (Z.max 0 timeout) |}.

(** [signal || controller.signal]. *)
Definition requestSignal (this : Config.t) (options : Options.t) : AbortSignal :=
  match Options.signal options with
  | Some signal => signal
  | None => controller_signal (request_timeout this options)
  end.

(** [fetchOptions.method || 'GET']. *)
Definition request_method (options : Options.t) : string :=
  match Options.method options with
  | Some m => if Js.truthy_str m then m else "GET"
  | None => "GET"
  end.

(** Lines 277-297: the classified error with the request attached. *)
Definition http_error (this : Config.t) (endpoint : string)
    (options : Options.t) (response : Resp.t) (responseData : ResponseData)
    : Err.t :=
  let headers := Resp.headers response in
  Err.set_request
    {| req_url := request_url this endpoint;
       req_method := request_method options;
       req_headers := requestHeaders this options;
       req_body := Options.body options |}
    (createHttpError (Resp.status response) (Resp.statusText response)
       None (Some responseData) (Some headers)).

(** Lines 276-304: the status check on the decoded body. *)
Definition check_status (this : Config.t) (endpoint : string)
    (options : Options.t) (response : Resp.t) (responseData : ResponseData)
    : Outcome :=
  if negb (Config.validateStatus this (Resp.status response)) then
    let error := http_error this endpoint options response responseData in
    if Config.throwOnError this then Throws error
    else Returns (VData responseData)
  else Returns (VData responseData).

(** Lines 252-304: the body of the [try]. *)
Definition request_try (this : Config.t) (endpoint : string)
    (options : Options.t) (settled : Settled) : Outcome :=
  match settled with
  | Rejects error => Throws error
  | Resolves response =>
      let contentType :=
        default "" (truthy_header (Resp.headers response) "content-type") in
      if Js.includes contentType "application/json" then
        match Resp.parsed response with
        | Some j => check_status this endpoint options response (DJson j)
        | None => Throws JsonSyntaxError
        end
      else if Js.includes contentType "text/html" ||
              Js.includes contentType "text/plain" then
        check_status this endpoint options response (DText (Resp.text response))
      else if Js.includes contentType "text/event-stream" then
        Returns (VResponse response)
      else
        check_status this endpoint options response (DText (Resp.text response))
  end.

(** Lines 305-318: the [catch]. *)
Definition request_catch (timeout : Z) (url : string) (o : Outcome) : Outcome :=
  match o with
  | Returns v => Returns v
  | Throws error =>
      if Err.instanceof error C_Error && String.eqb (Err.name error) "AbortError"
      then Throws (TimeoutError timeout (Some url))
      else if Err.instanceof error C_TypeError &&
              Js.includes (Err.message error) "fetch"
      then Throws (NetworkError
                     ("Network request failed: " +:+ Err.message error)
                     (Some error))
      else Throws error
  end.

(** [request(endpoint, options)] against the network [net]; [None] when
    the promise never settles. *)
Definition request (this : Config.t) (endpoint : string) (options : Options.t)
    (net : Exchange) : option Outcome :=
  let url := request_url this endpoint in
  let timeout := request_timeout this options in
  match fetch net (requestSignal this options) with
  | None => None
  | Some settled =>
      Some (request_catch timeout url (request_try this endpoint options settled))
  end.

(** ** [requestWithRetry] ([src/sdk.ts], lines 321-365) *)

(** What one logical call did: how many times [request] ran and the
    delays of the backoff sleeps, in order. *)
Record Trace : Type := {
  attempts : nat;
  sleeps : list Z
}.

(** One more [request] ran. *)
Definition attempted (tr : Trace) : Trace :=
  {| attempts := S (attempts tr); sleeps := sleeps tr |}.

(** The coordinator slept [delay] milliseconds (line 359). *)
Definition slept (delay : Z) (tr : Trace) : Trace :=
  {| attempts := attempts tr; sleeps := sleeps tr ++ [delay] |}.

(** Lines 334-340: the test that stops the retries. *)
Definition is_client_error (error : Err.t) : bool :=
  Err.instanceof error C_Crawl4AIError &&
  match Err.status error with
  | Some status =>
      negb (status =? 0) &&
      (CLIENT_ERROR_MIN <=? status) && (status <? CLIENT_ERROR_MAX) &&
      negb (status =? RATE_LIMIT_STATUS)
  | None => false
  end.

(** Lines 345-357: the delay before the next attempt. *)
Definition retry_delay (this : Config.t) (attempt : nat) (error : Err.t) : Z :=
  let delay := Config.retryDelay this * RETRY_BACKOFF_MULTIPLIER ^ Z.of_nat attempt in
  if Err.instanceof error C_RateLimitError then
    match Err.retryAfter error with
    | Some (Num retryAfter) =>
        if Js.truthy_num (Num retryAfter) then retryAfter * 1000 else delay
    | Some NaN => delay
    | None => delay
    end
  else delay.

(** The [for] loop: [remaining] iterations are left, [attempt] is the
    loop variable and [run attempt] the outcome of the [request] of that
    iteration. *)
Fixpoint retry_loop (this : Config.t) (run : nat -> option Outcome)
    (remaining attempt : nat) (lastError : Err.t) (tr : Trace)
    : option Outcome * Trace :=
  match remaining with
  | O => (Some (Throws lastError), tr)
  | S remaining' =>
      match run attempt with
      | None => (None, attempted tr)
      | Some (Returns v) => (Some (Returns v), attempted tr)
      | Some (Throws error) =>
          if is_client_error error then (Some (Throws error), attempted tr)
          else
            let tr' :=
              if (attempt <? Config.retries this)%nat
              then slept (retry_delay this attempt error) (attempted tr)
              else attempted tr in
            retry_loop this run remaining' (S attempt) error tr'
      end
  end.

(** The loop from [attempt = 0] while [attempt <= retries]. *)
Definition retry_run (this : Config.t) (run : nat -> option Outcome)
    : option Outcome * Trace :=
  retry_loop this run (S (Config.retries this)) 0%nat
    (BuiltinError C_Error "Error" "No attempts made")
    {| attempts := 0; sleeps := [] |}.

(** [requestWithRetry(endpoint, options)]; [net k] is the network during
    the [k]-th attempt. *)
Definition requestWithRetry (this : Config.t) (endpoint : string)
    (options : Options.t) (net : nat -> Exchange) : option Outcome * Trace :=
  retry_run this (fun attempt => request this endpoint options (net attempt)).

(** ** Stream decoder (specification, section 4.4)

    The sources hand the open response of a [text/event-stream] answer
    to the caller ([src/sdk.ts], lines 267-270) and hold no decoder, so
    every definition of this module follows the words of the
    specification. *)

Module StreamDecoder.

#[local] Open Scope list_scope.

(** Modelled from the spec: the text the decoder buffers; the decoder is
    missing from the sources. *)
Definition text : Type := list ascii.

(** Modelled from the spec: the characters of a line break. *)
Definition LF : ascii := "010"%char.
Definition CR : ascii := "013"%char.

(** Modelled from the spec: a line break at the head of the text, LF or
    CR LF, and the text after it; missing from the sources. *)
Definition line_break (t : text) : option text :=
  match t with
  | [] => None
  | c :: r =>
      if Ascii.eqb c LF then Some r
      else if Ascii.eqb c CR then
        match r with
        | [] => None
        | d :: r' => if Ascii.eqb d LF then Some r' else None
        end
      else None
  end.

(** Modelled from the spec: the blank-line terminator at the head of the
    text, two consecutive line breaks; missing from the sources. *)
Definition terminator (t : text) : option text :=
  match line_break t with
  | Some r => line_break r
  | None => None
  end.

(** Modelled from the spec: the scan of the buffer for a complete frame,
    which is missing from the sources.  The frame is the text before
    the first terminator, the rest what follows that terminator. *)
Fixpoint split_frame (buf : text) : option (text * text) :=
  match terminator buf with
  | Some rest => Some ([], rest)
  | None =>
      match buf with
      | [] => None
      | c :: buf' =>
          match split_frame buf' with
          | Some (frame, rest) => Some (c :: frame, rest)
          | None => None
          end
      end
  end.

(** Modelled from the spec: the [StreamEvent] of the data model, which the
    sources do not declare. *)
Record StreamEvent : Type := {
  event : option text;
  data : text;
  id : option text;
  retry : option text
}.

(** Modelled from the spec: the event being built while the lines of a
    frame are read; missing from the sources. *)
Record Builder : Type := {
  b_event : option text;
  b_data : list text;
  b_id : option text;
  b_retry : option text
}.

(** Modelled from the spec: the event before any line is read; missing
    from the sources. *)
Definition empty_builder : Builder :=
  {| b_event := None; b_data := []; b_id := None; b_retry := None |}.

(** Modelled from the spec: the lines of a frame, the text between LFs;
    missing from the sources. *)
Fixpoint split_lines (t : text) : list text :=
  match t with
  | [] => [[]]
  | c :: r =>
      if Ascii.eqb c LF then [] :: split_lines r
      else
        match split_lines r with
        | [] => [[c]]
        | l :: ls => (c :: l) :: ls
        end
  end.

(** Modelled from the spec: under CRLF framing a CR that ends a line
    belongs to the line break; missing from the sources. *)
Fixpoint strip_cr (l : text) : text :=
  match l with
  | [] => []
  | [c] => if Ascii.eqb c CR then [] else [c]
  | c :: r => c :: strip_cr r
  end.

(** Modelled from the spec: [field:value] split at the first colon, a
    line without a colon being a field with an empty value; missing from
    the sources. *)
Fixpoint split_colon (l : text) : text * text :=
  match l with
  | [] => ([], [])
  | c :: r =>
      if Ascii.eqb c ":" then ([], r)
      else let '(f, v) := split_colon r in (c :: f, v)
  end.

(** Modelled from the spec: one optional leading space of the value is
    dropped; missing from the sources. *)
Definition strip_space (v : text) : text :=
  match v with
  | c :: r => if Ascii.eqb c " " then r else v
  | [] => []
  end.

(** Modelled from the spec: the comparison of a field name; missing from
    the sources. *)
Definition field_is (f : text) (name : string) : bool :=
  bool_decide (f = list_ascii_of_string name).

(** Modelled from the spec: the field names of a [StreamEvent], the ones
    the decoder knows; missing from the sources. *)
Definition recognized (f : text) : bool :=
  field_is f "data" || field_is f "event" || field_is f "id" ||
  field_is f "retry".

(** Modelled from the spec: what one line of a frame contributes to the
    event being built, which is missing from the sources. *)
Definition apply_line (b : Builder) (line : text) : Builder :=
  match line with
  | c :: _ =>
      if Ascii.eqb c ":" then b
      else
        let '(f, raw) := split_colon line in
        let v := strip_space raw in
        if field_is f "data" then
          {| b_event := b_event b; b_data := b_data b ++ [v];
             b_id := b_id b; b_retry := b_retry b |}
        else if field_is f "event" then
          {| b_event := Some v; b_data := b_data b;
             b_id := b_id b; b_retry := b_retry b |}
        else if field_is f "id" then
          {| b_event := b_event b; b_data := b_data b;
             b_id := Some v; b_retry := b_retry b |}
        else if field_is f "retry" then
          {| b_event := b_event b; b_data := b_data b;
             b_id := b_id b; b_retry := Some v |}
        else b
  | [] => b
  end.

(** Modelled from the spec: the values of the [data] lines joined with a
    line break; missing from the sources. *)
Fixpoint join_lines (ls : list text) : text :=
  match ls with
  | [] => []
  | [l] => l
  | l :: rest => l ++ LF :: join_lines rest
  end.

(** Modelled from the spec: the event a completed frame yields; missing
    from the sources. *)
Definition finish (b : Builder) : StreamEvent :=
  {| event := b_event b; data := join_lines (b_data b);
     id := b_id b; retry := b_retry b |}.

(** Modelled from the spec: the decoding of one complete frame, which
    is missing from the sources. *)
Definition parse_frame (frame : text) : StreamEvent :=
  finish (fold_left apply_line (strip_cr <$> split_lines frame) empty_builder).

(** Modelled from the spec: every complete frame is taken out of the
    buffer and decoded, the incomplete tail stays; this loop is missing
    from the sources.  [fuel] bounds the number of frames. *)
Fixpoint drain_fuel (fuel : nat) (buf : text) : list StreamEvent * text :=
  match fuel with
  | O => ([], buf)
  | S fuel' =>
      match split_frame buf with
      | None => ([], buf)
      | Some (frame, rest) =>
          let '(events, pending) := drain_fuel fuel' rest in
          (parse_frame frame :: events, pending)
      end
  end.

(** Modelled from the spec: the drain of a buffer, which holds fewer
    frames than characters; missing from the sources. *)
Definition drain (buf : text) : list StreamEvent * text :=
  drain_fuel (length buf) buf.

(** Modelled from the spec: a chunk is appended to the buffer and the
    buffer drained; missing from the sources. *)
Definition feed (buf chunk : text) : list StreamEvent * text :=
  drain (buf ++ chunk).

(** Modelled from the spec: the decoder over the chunks of a stream,
    from an empty buffer; the events in order and the text left pending
    when the stream closes.  Missing from the sources. *)
Fixpoint decode_from (buf : text) (chunks : list text)
    : list StreamEvent * text :=
  match chunks with
  | [] => ([], buf)
  | chunk :: chunks' =>
      let '(events, buf') := feed buf chunk in
      let '(later, pending) := decode_from buf' chunks' in
      (events ++ later, pending)
  end.

(** Modelled from the spec: the decoder started on an empty buffer;
    missing from the sources. *)
Definition decode (chunks : list text) : list StreamEvent * text :=
  decode_from [] chunks.

(** A string literal as text. *)
Definition txt (s : string) : text := list_ascii_of_string s.

(** The line [data: v] of the wire format. *)
Definition data_line (v : text) : text :=
  list_ascii_of_string "data: " ++ v.

(** Text without LF. *)
Definition no_lf (l : text) : bool :=
  forallb (fun c => negb (Ascii.eqb c LF)) l.

(** Text without LF and without CR. *)
Definition is_plain (l : text) : bool :=
  forallb (fun c => negb (Ascii.eqb c LF) && negb (Ascii.eqb c CR)) l.

(** The field name of a line, as [apply_line] reads it. *)
Definition field_of (line : text) : text :=
  (split_colon (strip_cr line)).1.

End StreamDecoder.

(** ** Auxiliary notions used to state the properties *)

(** The value lines 260-272 assign to [responseData]; [None] when the
    function leaves earlier, on a stream or on a body that is not JSON. *)
Definition decoded_body (response : Resp.t) : option ResponseData :=
  let contentType :=
    default "" (truthy_header (Resp.headers response) "content-type") in
  if Js.includes contentType "application/json" then
    DJson <$> Resp.parsed response
  else if Js.includes contentType "text/html" ||
          Js.includes contentType "text/plain" then
    Some (DText (Resp.text response))
  else if Js.includes contentType "text/event-stream" then None
  else Some (DText (Resp.text response)).

(** The delays slept when every attempt from [attempt] on fails with a
    retryable error. *)
Definition backoff_schedule (this : Config.t) (e : nat -> Err.t)
    (attempt : nat) : list Z :=
  (fun a => retry_delay this a (e a))
    <$> seq attempt (Config.retries this - attempt).

(** The deadline timer fires no later than the network settles. *)
Definition deadline_first (timeout : Z) (net : Exchange) : Prop :=
  match net with
  | Never => True
  | Settles t _ => Z.max 0 timeout <= t
  end.



(** ** Sample inputs *)

(** A client built from the defaults of the constructor: three retries,
    a base delay of 1000 ms, throwing on HTTP errors. *)
Definition sample_client : Config.t := defaults "https://example.com".

(** The same client with [throwOnError: false]. *)
Definition quiet_client : Config.t :=
  {| Config.baseUrl := "https://example.com";
     Config.apiToken := "";
     Config.timeout := DEFAULT_TIMEOUT;
     Config.retries := DEFAULT_RETRIES;
     Config.retryDelay := DEFAULT_RETRY_DELAY;
     Config.defaultHeaders := {[ "Content-Type" := "application/json" ]};
     Config.throwOnError := false;
     Config.validateStatus := fun status => status <? CLIENT_ERROR_MIN;
     Config.debug := false |}.

(** A plain-text response with the given status line and headers. *)
Definition text_response (status : Z) (statusText : string)
    (extra : gmap string string) : Resp.t :=
  {| Resp.status := status; Resp.statusText := statusText;
     Resp.headers := <[ "content-type" := "text/plain" ]> extra;
     Resp.text := statusText; Resp.parsed := None |}.

(** A 200 response that announces JSON and carries something else. *)
Definition malformed_json_response : Resp.t :=
  {| Resp.status := 200; Resp.statusText := "OK";
     Resp.headers := {[ "content-type" := "application/json" ]};
     Resp.text := "<html>"; Resp.parsed := None |}.

(** A 404 response with a JSON body. *)
Definition not_found_json_response : Resp.t :=
  {| Resp.status := 404; Resp.statusText := "Not Found";
     Resp.headers := {[ "content-type" := "application/json" ]};
     Resp.text := "{ detail: missing }";
     Resp.parsed := Some (JObj {[ "detail" := JStr "missing" ]}) |}.

(** A server that answers every attempt with the same response, 20 ms
    after the request. *)
Definition always (r : Resp.t) : nat -> Exchange :=
  fun _ => Settles 20 (Resolves r).

(** A server that is rate limiting on the first attempt, asking for a
    retry after zero seconds, and answers afterwards. *)
Definition rate_limited_once : nat -> Exchange :=
  fun attempt =>
    match attempt with
    | O => Settles 20 (Resolves (text_response 429 "Too Many Requests"
                                   {[ "retry-after" := "0" ]}))
    | S _ => Settles 20 (Resolves (text_response 200 "OK" ∅))
    end.

(** Options with a deadline of 1 ms and no signal of the caller. *)
Definition one_ms_deadline : Options.t :=
  {| Options.method := Some "POST"; Options.body := None;
     Options.headers := None; Options.timeout := Some 1;
     Options.signal := None |}.


(** * The rest of the client *)

(** ** Type guards ([src/errors.ts], lines 162-188) *)

(** [isCrawl4AIError(error)], on an error object. *)
Definition isCrawl4AIError (error : Err.t) : bool :=
  Err.instanceof error C_Crawl4AIError.

(** [isRateLimitError(error)]. *)
Definition isRateLimitError (error : Err.t) : bool :=
  Err.instanceof error C_RateLimitError.

(** [isAuthError(error)]. *)
Definition isAuthError (error : Err.t) : bool :=
  Err.instanceof error C_AuthError.

(** [isNetworkError(error)]. *)
Definition isNetworkError (error : Err.t) : bool :=
  Err.instanceof error C_NetworkError.

(** ** Setters ([src/sdk.ts], lines 685-716) *)

(** [s.replace(/\/$/, '')]: one slash at the very end is removed. *)
Fixpoint strip_trailing_slash (s : string) : string :=
  match s with
  | EmptyString => EmptyString
  | String c EmptyString => if Ascii.eqb c "/" then EmptyString else s
  | String c r => String c (strip_trailing_slash r)
  end.

(** [setApiToken(token)]: the client after the call. *)
Definition setApiToken (token : string) (this : Config.t) : Config.t :=
  {| Config.baseUrl := Config.baseUrl this;
     Config.apiToken := token;
     Config.timeout := Config.timeout this;
     Config.retries := Config.retries this;
     Config.retryDelay := Config.retryDelay this;
     Config.defaultHeaders :=
       if Js.truthy_str token
       then <[ "Authorization" := "Bearer " +:+ token ]> (Config.defaultHeaders this)
       else delete "Authorization" (Config.defaultHeaders this);
     Config.throwOnError := Config.throwOnError this;
     Config.validateStatus := Config.validateStatus this;
     Config.debug := Config.debug this |}.

(** [setBaseUrl(baseUrl)]. *)
Definition setBaseUrl (baseUrl : string) (this : Config.t) : Config.t :=
  {| Config.baseUrl := strip_trailing_slash baseUrl;
     Config.apiToken := Config.apiToken this;
     Config.timeout := Config.timeout this;
     Config.retries := Config.retries this;
     Config.retryDelay := Config.retryDelay this;
     Config.defaultHeaders := Config.defaultHeaders this;
     Config.throwOnError := Config.throwOnError this;
     Config.validateStatus := Config.validateStatus this;
     Config.debug := Config.debug this |}.

(** [setDebug(debug)]. *)
Definition setDebug (debug : bool) (this : Config.t) : Config.t :=
  {| Config.baseUrl := Config.baseUrl this;
     Config.apiToken := Config.apiToken this;
     Config.timeout := Config.timeout this;
     Config.retries := Config.retries this;
     Config.retryDelay := Config.retryDelay this;
     Config.defaultHeaders := Config.defaultHeaders this;
     Config.throwOnError := Config.throwOnError this;
     Config.validateStatus := Config.validateStatus this;
     Config.debug := debug |}.

(** ** Plain endpoints ([src/sdk.ts], lines 585-683) *)

Definition HEALTH_CHECK_TIMEOUT : Z := 5000.

Module RequestConfig.

(** [RequestConfig] of the type declarations. *)
Record t : Type := mk {
  timeout : option Z;
  signal : option AbortSignal;
  headers : option (gmap string string)
}.

End RequestConfig.

(** [{ method, body, ...config }], the options a public method builds
    from its optional [config]. *)
Definition spread_config (method : string) (body : option string)
    (config : option RequestConfig.t) : Options.t :=
  {| Options.method := Some method;
     Options.body := body;
     Options.headers := config ≫= RequestConfig.headers;
     Options.timeout := config ≫= RequestConfig.timeout;
     Options.signal := config ≫= RequestConfig.signal |}.

(** [health(config)]: one [request], no retry. *)
Definition health (this : Config.t) (config : option RequestConfig.t)
    (net : Exchange) : option Outcome :=
  request this "/health" (spread_config "GET" None config) net.

(** [metrics(config)]. *)
Definition metrics (this : Config.t) (config : option RequestConfig.t)
    (net : Exchange) : option Outcome :=
  request this "/metrics" (spread_config "GET" None config) net.

(** [schema(config)]. *)
Definition schema (this : Config.t) (config : option RequestConfig.t)
    (net : Exchange) : option Outcome :=
  request this "/schema" (spread_config "GET" None config) net.

(** [getRoot(config)]. *)
Definition getRoot (this : Config.t) (config : option RequestConfig.t)
    (net : Exchange) : option Outcome :=
  request this "/" (spread_config "GET" None config) net.

(** How a public method that computes an [A] completes. *)
Inductive Completion (A : Type) : Type :=
| Normal (a : A)
| Abrupt (e : Err.t).

Arguments Normal {A} a.
Arguments Abrupt {A} e.

(** [testConnection(options)]; [throwOnError] is the truthiness of
    [options?.throwOnError]. *)
Definition testConnection (this : Config.t) (throwOnError : bool)
    (net : Exchange) : option (Completion bool) :=
  match health this
          (Some {| RequestConfig.timeout := Some HEALTH_CHECK_TIMEOUT;
                   RequestConfig.signal := None;
                   RequestConfig.headers := None |}) net with
  | None => None
  | Some (Returns _) => Some (Normal true)
  | Some (Throws error) =>
      if throwOnError then Some (Abrupt error) else Some (Normal false)
  end.

(** The [TypeError] of a property read on [null]. *)
Definition NullReadError (k : string) : Err.t :=
  BuiltinError C_TypeError "TypeError"
    ("Cannot read properties of null (reading '" +:+ k +:+ "')").

(** The read [v.k] on what a request resolved to, for a key [k] that no
    built-in prototype and no [Response] defines ([version], [markdown],
    [html]): the own property of a decoded object, [undefined] on every
    other value, and a [TypeError] on [null]. *)
Definition read_property (k : string) (v : value) : Completion (option json) :=
  match v with
  | VData (DJson JNull) => Abrupt (NullReadError k)
  | VData (DJson j) => Normal (Js.get k j)
  | VData (DText _) => Normal None
  | VResponse _ => Normal None
  | VError _ => Normal None
  end.



(** ** Construction and the crawling endpoints
      ([src/sdk.ts], lines 92-185 and 389-500) *)

Module Crawl4AIConfig.

(** [Crawl4AIConfig], what the caller passes to the constructor; an
    optional property that is absent is [None].  The numbers of a
    configuration are integers here, on which [Number.isFinite] and
    [Number.isInteger] hold. *)
Record t : Type := mk {
  baseUrl : string;
  apiToken : option string;
  timeout : option Z;
  retries : option Z;
  retryDelay : option Z;
  defaultHeaders : option (gmap string string);
  throwOnError : option bool;
  validateStatus : option (Z -> bool);
  debug : option bool
}.

End Crawl4AIConfig.

(** [request.urls], a string or an array of strings. *)
Inductive Urls : Type :=
| OneUrl (url : string)
| ManyUrls (urls : list string).

(** A [CrawlRequest]: its [urls] and its other properties. *)
Record CrawlRequest : Type := {
  crawl_urls : Urls;
  crawl_fields : gmap string json
}.

(** A request that names one page ([MarkdownRequest], [HtmlRequest],
    [ExecuteJsRequest]): its [url] and its other properties. *)
Record PageRequest : Type := {
  page_url : string;
  page_fields : gmap string json
}.

(** The array [crawl] resolves to: the array the normalizer returns for
    a decoded value, or the one-element array around a value that is no
    JSON value. *)
Inductive CrawlResults : Type :=
| Results (array : json)
| Wrapped (v : value).

(** Lines 122-131: the error for a [timeout] that is not positive. *)
Definition invalid_timeout (config : Crawl4AIConfig.t) : option Err.t :=
  match Crawl4AIConfig.timeout config with
  | Some t =>
      if t <=? 0 then
        Some (RequestValidationError "timeout must be a positive number"
                (Some "timeout") (Some (JNum t)))
      else None
  | None => None
  end.

(** Lines 133-142: the error for a negative [retries]. *)
Definition invalid_retries (config : Crawl4AIConfig.t) : option Err.t :=
  match Crawl4AIConfig.retries config with
  | Some r =>
      if r <? 0 then
        Some (RequestValidationError "retries must be a non-negative integer"
                (Some "retries") (Some (JNum r)))
      else None
  | None => None
  end.

(** Lines 144-153: the error for a negative [retryDelay]. *)
Definition invalid_retryDelay (config : Crawl4AIConfig.t) : option Err.t :=
  match Crawl4AIConfig.retryDelay config with
  | Some d =>
      if d <? 0 then
        Some (RequestValidationError "retryDelay must be a non-negative number"
                (Some "retryDelay") (Some (JNum d)))
      else None
  | None => None
  end.

(** Lines 155-171: the configuration merged over the defaults, with the
    authorization header of a token. *)
Definition merged_config (config : Crawl4AIConfig.t) : Config.t :=
  let apiToken := default "" (Crawl4AIConfig.apiToken config) in
  let merged :=
    default ∅ (Crawl4AIConfig.defaultHeaders config)
      ∪ {[ "Content-Type" := "application/json" ]} in
  {| Config.baseUrl := strip_trailing_slash (Crawl4AIConfig.baseUrl config);
     Config.apiToken := apiToken;
     Config.timeout := default DEFAULT_TIMEOUT (Crawl4AIConfig.timeout config);
     Config.retries :=
       match Crawl4AIConfig.retries config with
       | Some r => Z.to_nat r
       | None => DEFAULT_RETRIES
       end;
     Config.retryDelay :=
       default DEFAULT_RETRY_DELAY (Crawl4AIConfig.retryDelay config);
     Config.defaultHeaders :=
       if Js.truthy_str apiToken
       then <[ "Authorization" := "Bearer " +:+ apiToken ]> merged
       else merged;
     Config.throwOnError := default true (Crawl4AIConfig.throwOnError config);
     Config.validateStatus :=
       default (fun status => status <? CLIENT_ERROR_MIN)
         (Crawl4AIConfig.validateStatus config);
     Config.debug := default false (Crawl4AIConfig.debug config) |}.

Section Runtime.

(** [new URL(s)] does not throw. *)
Variable URL_parses : string -> bool.

(** [JSON.stringify] on a request object. *)
Variable JSON_stringify : json -> string.

(** [new Crawl4AI(config)]: the [config] field of the new client, or the
    error the constructor throws. *)
Definition createCrawl4AI (config : Crawl4AIConfig.t) : Completion Config.t :=
  let baseUrl := Crawl4AIConfig.baseUrl config in
  if negb (Js.truthy_str baseUrl) then
    Abrupt (RequestValidationError "baseUrl is required in configuration"
              (Some "baseUrl") None)
  else if negb (URL_parses baseUrl) then
    Abrupt (RequestValidationError ("Invalid baseUrl: " +:+ baseUrl)
              (Some "baseUrl") (Some (JStr baseUrl)))
  else
    match invalid_timeout config with
    | Some e => Abrupt e
    | None =>
        match invalid_retries config with
        | Some e => Abrupt e
        | None =>
            match invalid_retryDelay config with
            | Some e => Abrupt e
            | None => Normal (merged_config config)
            end
        end
    end.

(** [validateUrl(url)]: the error it throws, if any. *)
Definition validateUrl (url : string) : option Err.t :=
  if URL_parses url then None
  else Some (RequestValidationError ("Invalid URL: " +:+ url)
               (Some "url") (Some (JStr url))).

(** The loop [for (const url of urls) this.validateUrl(url)]: the error
    of the first URL that does not parse. *)
Fixpoint validate_urls (urls : list string) : option Err.t :=
  match urls with
  | [] => None
  | url :: rest =>
      match validateUrl url with
      | Some e => Some e
      | None => validate_urls rest
      end
  end.

(** [Array.isArray(request.urls) ? request.urls : [request.urls]]. *)
Definition url_array (urls : Urls) : list string :=
  match urls with
  | OneUrl url => [url]
  | ManyUrls us => us
  end.

(** [{ ...request, urls: urls }]. *)
Definition normalizedRequest (request : CrawlRequest) : json :=
  JObj (<[ "urls" := JArr (JStr <$> url_array (crawl_urls request)) ]>
          (crawl_fields request)).

(** [normalizeArrayResponse] on whatever [requestWithRetry] resolved to:
    decoded data goes through the normalizer, a text being a string
    value; a raw response is an object without [results] or [result]. *)
Definition normalize_value (response : value) : CrawlResults :=
  match response with
  | VData (DJson j) => Results (normalizeArrayResponse j)
  | VData (DText text) => Results (normalizeArrayResponse (JStr text))
  | VResponse _ => Wrapped response
  | VError _ => Wrapped response
  end.

(** [crawl(request, config)], with the trace of its network activity. *)
Definition crawl (this : Config.t) (request : CrawlRequest)
    (config : option RequestConfig.t) (net : nat -> Exchange)
    : option (Completion CrawlResults) * Trace :=
  match validate_urls (url_array (crawl_urls request)) with
  | Some e => (Some (Abrupt e), {| attempts := 0; sleeps := [] |})
  | None =>
      let '(o, tr) :=
        requestWithRetry this "/crawl"
          (spread_config "POST"
             (Some (JSON_stringify (normalizedRequest request))) config) net in
      (match o with
       | None => None
       | Some (Throws e) => Some (Abrupt e)
       | Some (Returns response) => Some (Normal (normalize_value response))
       end, tr)
  end.

(** The request object of a page request as [JSON.stringify] sees it. *)
Definition page_object (request : PageRequest) : json :=
  JObj (<[ "url" := JStr (page_url request) ]> (page_fields request)).

(** [typeof response === 'string' ? response : response[k]], the way
    [markdown] and [html] read their answer. *)
Definition string_or_property (k : string) (response : value)
    : Completion (option json) :=
  match response with
  | VData (DText text) => Normal (Some (JStr text))
  | VData (DJson (JStr text)) => Normal (Some (JStr text))
  | _ => read_property k response
  end.

(** The common shape of [markdown] and [html]: validate, post with
    retries, read the answer. *)
Definition page_text (endpoint k : string) (this : Config.t)
    (request : PageRequest) (config : option RequestConfig.t)
    (net : nat -> Exchange)
    : option (Completion (option json)) * Trace :=
  match validateUrl (page_url request) with
  | Some e => (Some (Abrupt e), {| attempts := 0; sleeps := [] |})
  | None =>
      let '(o, tr) :=
        requestWithRetry this endpoint
          (spread_config "POST" (Some (JSON_stringify (page_object request)))
             config) net in
      (match o with
       | None => None
       | Some (Throws e) => Some (Abrupt e)
       | Some (Returns response) => Some (string_or_property k response)
       end, tr)
  end.

(** [markdown(request, config)]. *)
Definition markdown : Config.t -> PageRequest -> option RequestConfig.t ->
    (nat -> Exchange) -> option (Completion (option json)) * Trace :=
  page_text "/md" "markdown".

(** [html(request, config)]. *)
Definition html : Config.t -> PageRequest -> option RequestConfig.t ->
    (nat -> Exchange) -> option (Completion (option json)) * Trace :=
  page_text "/html" "html".

(** [executeJs(request, config)]. *)
Definition executeJs (this : Config.t) (request : PageRequest)
    (config : option RequestConfig.t) (net : nat -> Exchange)
    : option Outcome * Trace :=
  match validateUrl (page_url request) with
  | Some e => (Some (Throws e), {| attempts := 0; sleeps := [] |})
  | None =>
      requestWithRetry this "/execute_js"
        (spread_config "POST" (Some (JSON_stringify (page_object request)))
           config) net
  end.

End Runtime.

(** ** Query strings, [ask] and [llm]
      ([src/sdk.ts], lines 216-227 and 502-583)

    A string stands for the UTF-8 bytes of the JavaScript string, which
    is what the encoders of the runtime work on. *)

(** ASCII letters and digits. *)
Definition is_alnum (c : ascii) : bool :=
  let n := nat_of_ascii c in
  (Nat.leb 48 n && Nat.leb n 57) || (Nat.leb 65 n && Nat.leb n 90) ||
  (Nat.leb 97 n && Nat.leb n 122).

(** [c] is one of the characters of [set]. *)
Fixpoint char_in (c : ascii) (set : string) : bool :=
  match set with
  | EmptyString => false
  | String d rest => Ascii.eqb c d || char_in c rest
  end.

(** The characters [encodeURIComponent] leaves as they are. *)
Definition uri_unreserved (c : ascii) : bool :=
  is_alnum c || char_in c "-_.!~*'()".

(** The characters the serializer of [URLSearchParams] leaves as they
    are. *)
Definition form_unreserved (c : ascii) : bool :=
  is_alnum c || char_in c "*-._".

(** An upper-case hexadecimal digit. *)
Definition hex_digit (n : nat) : ascii :=
  if Nat.ltb n 10 then ascii_of_nat (48 + n) else ascii_of_nat (55 + n).

(** [%XX] for a byte. *)
Definition percent_encode (c : ascii) : string :=
  let n := nat_of_ascii c in
  String "%" (String (hex_digit (n / 16)) (String (hex_digit (n mod 16)) "")).

(** [encodeURIComponent(s)]. *)
Fixpoint encodeURIComponent (s : string) : string :=
  match s with
  | EmptyString => EmptyString
  | String c rest =>
      (if uri_unreserved c then String c "" else percent_encode c)
        +:+ encodeURIComponent rest
  end.

(** A name or a value as [URLSearchParams.prototype.toString] writes it:
    a space becomes [+]. *)
Fixpoint form_encode (s : string) : string :=
  match s with
  | EmptyString => EmptyString
  | String c rest =>
      (if Ascii.eqb c " " then "+"
       else if form_unreserved c then String c ""
       else percent_encode c)
        +:+ form_encode rest
  end.

(** [URLSearchParams.prototype.toString]: [name=value] joined by [&]. *)
Fixpoint searchParams_toString (pairs : list (string * string)) : string :=
  match pairs with
  | [] => ""
  | [(k, v)] => form_encode k +:+ "=" +:+ form_encode v
  | (k, v) :: rest =>
      form_encode k +:+ "=" +:+ form_encode v +:+ "&"
        +:+ searchParams_toString rest
  end.

(** [Array.prototype.join(separator)] on strings. *)
Fixpoint join_strings (separator : string) (parts : list string) : string :=
  match parts with
  | [] => ""
  | [part] => part
  | part :: rest => part +:+ separator +:+ join_strings separator rest
  end.

(** [String(v)] on a JSON value; in an array, [null] is the empty
    string. *)
Fixpoint js_String (v : json) : string :=
  match v with
  | JNull => "null"
  | JBool true => "true"
  | JBool false => "false"
  | JNum n => Js.toString n
  | JStr s => s
  | JArr xs =>
      join_strings ","
        ((fix elements (l : list json) : list string :=
            match l with
            | [] => []
            | JNull :: rest => "" :: elements rest
            | x :: rest => js_String x :: elements rest
            end) xs)
  | JObj _ => "[object Object]"
  end.

(** The entries [buildQueryParams] appends: those whose value is not
    [undefined], in order, the value through [String]. *)
Fixpoint defined_entries (params : list (string * option json))
    : list (string * string) :=
  match params with
  | [] => []
  | (key, Some v) :: rest => (key, js_String v) :: defined_entries rest
  | (_, None) :: rest => defined_entries rest
  end.

(** [buildQueryParams(params)], [params] by its entries. *)
Definition buildQueryParams (params : list (string * option json)) : string :=
  searchParams_toString (defined_entries params).

(** An [AskRequest]. *)
Record AskRequest : Type := {
  context_type : option string;
  ask_query : option string;
  score_ratio : option Z;
  max_results : option Z
}.

(** An [AskResponse]. *)
Record AskResponse : Type := {
  context : string;
  ask_type : string;
  query : option string;
  results_count : Z
}.

(** The endpoint [ask] requests (lines 507-514); [params] may be
    [undefined]. *)
Definition ask_endpoint (params : option AskRequest) : string :=
  let queryString :=
    buildQueryParams
      [("context_type", JStr <$> (params ≫= context_type));
       ("query", JStr <$> (params ≫= ask_query));
       ("score_ratio", JNum <$> (params ≫= score_ratio));
       ("max_results", JNum <$> (params ≫= max_results))] in
  "/ask" +:+ (if Js.truthy_str queryString then "?" +:+ queryString else "").

(** The [TypeError] of calling [map] on what is no array. *)
Definition NotAFunctionError : Err.t :=
  BuiltinError C_TypeError "TypeError" "results.map is not a function".

(** [a || b] on the results of two reads. *)
Definition or_else (a b : option json) : option json :=
  if Js.truthy_opt a then a else b.

(** [r.text] for one element of the results; [None] on top is the
    [TypeError] of a read on [null]. *)
Definition element_text (r : json) : option (option json) :=
  match r with
  | JNull => None
  | _ => Some (Js.get "text" r)
  end.

(** [results.map((r) => r.text)]: the texts, or the [TypeError] of the
    first [null] element. *)
Fixpoint map_text (results : list json) : Completion (list (option json)) :=
  match results with
  | [] => Normal []
  | r :: rest =>
      match element_text r with
      | None => Abrupt (NullReadError "text")
      | Some t =>
          match map_text rest with
          | Normal ts => Normal (t :: ts)
          | Abrupt e => Abrupt e
          end
      end
  end.

(** How [join] writes one element: [undefined] and [null] as the empty
    string. *)
Definition join_element (x : option json) : string :=
  match x with
  | None => ""
  | Some JNull => ""
  | Some v => js_String v
  end.

(** Lines 532-545: the answer [ask] builds from what the request
    resolved to. *)
Definition ask_result (params : option AskRequest) (response : value)
    : Completion AskResponse :=
  match read_property "doc_results" response with
  | Abrupt e => Abrupt e
  | Normal doc =>
      let chosen :=
        or_else doc
          (or_else (match read_property "code_results" response with
                    | Normal x => x
                    | Abrupt _ => None
                    end)
             (or_else (match read_property "all_results" response with
                       | Normal x => x
                       | Abrupt _ => None
                       end)
                (Some (JArr [])))) in
      match chosen with
      | Some (JArr results) =>
          match map_text results with
          | Abrupt e => Abrupt e
          | Normal texts =>
              Normal
                {| context :=
                     join_strings (String StreamDecoder.LF
                                     (String StreamDecoder.LF ""))
                       (join_element <$> texts);
                   ask_type :=
                     match params ≫= context_type with
                     | Some t => if Js.truthy_str t then t else "doc"
                     | None => "doc"
                     end;
                   query := params ≫= ask_query;
                   results_count := Z.of_nat (length results) |}
          end
      | _ => Abrupt NotAFunctionError
      end
  end.

(** [ask(params, config)]. *)
Definition ask (this : Config.t) (params : option AskRequest)
    (config : option RequestConfig.t) (net : nat -> Exchange)
    : option (Completion AskResponse) * Trace :=
  let '(o, tr) :=
    requestWithRetry this (ask_endpoint params)
      (spread_config "GET" None config) net in
  (match o with
   | None => None
   | Some (Throws e) => Some (Abrupt e)
   | Some (Returns response) => Some (ask_result params response)
   end, tr).

(** The endpoint [llm] requests (lines 566-574). *)
Definition llm_endpoint (url query : string) : string :=
  "/llm/" +:+ encodeURIComponent url +:+ "?"
    +:+ searchParams_toString [("q", query)].

(** [typeof response === 'string' ? response : response.answer || '']. *)
Definition llm_answer (response : value) : Completion json :=
  match response with
  | VData (DText text) => Normal (JStr text)
  | VData (DJson (JStr text)) => Normal (JStr text)
  | _ =>
      match read_property "answer" response with
      | Abrupt e => Abrupt e
      | Normal x => Normal (if Js.truthy_opt x then default JNull x else JStr "")
      end
  end.

(** [llm(url, query, config)]; [URL_parses] as in [validateUrl]. *)
Definition llm (URL_parses : string -> bool) (this : Config.t)
    (url query : string) (config : option RequestConfig.t)
    (net : nat -> Exchange) : option (Completion json) * Trace :=
  match validateUrl URL_parses url with
  | Some e => (Some (Abrupt e), {| attempts := 0; sleeps := [] |})
  | None =>
      let '(o, tr) :=
        requestWithRetry this (llm_endpoint url query)
          (spread_config "GET" None config) net in
      (match o with
       | None => None
       | Some (Throws e) => Some (Abrupt e)
       | Some (Returns response) => Some (llm_answer response)
       end, tr)
  end.

(** Every character of the string passes the test. *)
Fixpoint string_forall (P : ascii -> bool) (s : string) : bool :=
  match s with
  | EmptyString => true
  | String c rest => P c && string_forall P rest
  end.

(** What an encoded component is made of: letters, digits, the marks of
    [encodeURIComponent] and percent escapes. *)
Definition uri_safe (c : ascii) : bool :=
  uri_unreserved c || Ascii.eqb c "%".

(** What a serialized query is made of besides that: [+], [=] and [&]. *)
Definition query_safe (c : ascii) : bool :=
  uri_safe c || char_in c "+=&".

(** ** Notions used to state the further properties *)

(** The time one logical call spent sleeping between attempts. *)
Definition total_sleep (tr : Trace) : Z :=
  foldr Z.add 0 (sleeps tr).

(** The exponential schedule: the delay after attempt [a]. *)
Definition exponential_delay (this : Config.t) (a : nat) : Z :=
  Config.retryDelay this * 2 ^ Z.of_nat a.

(** * Properties *)

(** ** Response normalizer *)

Lemma has_property_obj (k : string) (props : gmap string json) :
  Js.has_property k (JObj props) = bool_decide (is_Some (props !! k)).
Proof. reflexivity. Qed.

Lemma normalize_obj_results (props : gmap string json) (rs : list json) :
  props !! "results" = Some (JArr rs) ->
  normalizeArrayResponse (JObj props) = JArr rs.
Proof.
  intros Hres. unfold normalizeArrayResponse, isApiArrayResponse.
  cbn [Js.isArray Js.typeof_object Js.is_null negb andb Js.get].
  rewrite !has_property_obj, Hres.
  rewrite bool_decide_eq_true_2 by eauto.
  reflexivity.
Qed.

(** C7: for every decoded JSON value the normalizer computes the priority
    rule of the specification (array as is, else the [results] array, else
    the [result] array, else the value wrapped in a one-element array), and
    the four sample envelopes normalize as listed. *)
Theorem normalizeArrayResponse_priority_rule :
  (forall v : json, normalizeArrayResponse v = normalize_rule v) /\
  normalizeArrayResponse (JObj {[ "results" := JArr [JNum 1; JNum 2] ]})
    = JArr [JNum 1; JNum 2] /\
  normalizeArrayResponse (JObj {[ "result" := JArr [JNum 1; JNum 2] ]})
    = JArr [JNum 1; JNum 2] /\
  normalizeArrayResponse (JArr [JNum 1; JNum 2]) = JArr [JNum 1; JNum 2] /\
  normalizeArrayResponse (JObj {[ "foo" := JNum 1 ]})
    = JArr [JObj {[ "foo" := JNum 1 ]}].
Proof.
  split; [| repeat split; vm_compute; reflexivity].
  intros v. destruct v as [| b | n | s | xs | props]; try reflexivity.
  unfold normalize_rule.
  destruct (props !! "results") as [res |] eqn:Hres.
  - destruct res as [| b | n | s | rs | ps];
      try solve [apply normalize_obj_results; assumption];
      unfold normalizeArrayResponse, isApiArrayResponse;
      cbn [Js.isArray Js.typeof_object Js.is_null negb andb Js.get];
      rewrite !has_property_obj, Hres;
      rewrite (bool_decide_eq_true_2 (is_Some (Some _))) by eauto;
      cbn [orb Js.truthy_opt Js.isArray_opt Js.isArray Js.truthy andb];
      rewrite ?Tauto.if_same, ?andb_false_r;
      (destruct (props !! "result") as [r |] eqn:Hr;
       [destruct r; cbn; try reflexivity; rewrite ?andb_false_r; reflexivity
       | reflexivity]).
  - unfold normalizeArrayResponse, isApiArrayResponse.
    cbn [Js.isArray Js.typeof_object Js.is_null negb andb Js.get].
    rewrite !has_property_obj, Hres.
    rewrite (bool_decide_eq_false_2 (is_Some None)) by (intros [? ?]; discriminate).
    cbn [orb Js.truthy_opt Js.isArray_opt andb].
    destruct (props !! "result") as [r |] eqn:Hr.
    + rewrite bool_decide_eq_true_2 by eauto.
      destruct r; cbn; try reflexivity; rewrite ?andb_false_r; reflexivity.
    + rewrite bool_decide_eq_false_2 by (intros [? ?]; discriminate).
      reflexivity.
Qed.

(** ** Error classification *)

Lemma createHttpError_default_case (status : Z) (statusText : string)
    (message : option string) (data : option ResponseData)
    (headers : option (gmap string string)) :
  status <> 400 -> status <> 401 -> status <> 403 -> status <> 404 ->
  status <> 429 ->
  status <> 500 -> status <> 502 -> status <> 503 -> status <> 504 ->
  Err.cls (createHttpError status statusText message data headers)
    = C_Crawl4AIError /\
  Err.status (createHttpError status statusText message data headers)
    = Some status /\
  Err.statusText (createHttpError status statusText message data headers)
    = Some statusText /\
  Err.data (createHttpError status statusText message data headers) = data.
Proof.
  intros. unfold createHttpError.
  repeat match goal with
         | H : status <> ?n |- _ =>
             apply Z.eqb_neq in H; rewrite H; clear H
         end.
  cbn. repeat split.
Qed.

(** The rows of the table that the [switch] implements. *)
Lemma createHttpError_table (statusText : string) (message : option string)
    (data : option ResponseData) (headers : option (gmap string string)) :
  kind_of (createHttpError 400 statusText message data headers) = Some Validation /\
  kind_of (createHttpError 401 statusText message data headers) = Some Auth /\
  kind_of (createHttpError 403 statusText message data headers) = Some Auth /\
  kind_of (createHttpError 404 statusText message data headers) = Some NotFound /\
  kind_of (createHttpError 429 statusText message data headers) = Some RateLimit /\
  kind_of (createHttpError 500 statusText message data headers) = Some Server /\
  kind_of (createHttpError 502 statusText message data headers) = Some Server /\
  kind_of (createHttpError 503 statusText message data headers) = Some Server /\
  kind_of (createHttpError 504 statusText message data headers) = Some Server.
Proof. repeat split. Qed.

(** The retry-after of a 429 is the header run through [parseInt]. *)
Lemma createHttpError_retry_after (statusText value : string)
    (message : option string) (data : option ResponseData)
    (headers : gmap string string) :
  headers !! "retry-after" = Some value ->
  value <> "" ->
  Err.retryAfter (createHttpError 429 statusText message data (Some headers))
    = Some (Js.parseInt value).
Proof.
  intros Hh Hne. unfold createHttpError. cbn.
  unfold truthy_header. rewrite Hh.
  destruct value; [congruence | reflexivity].
Qed.

(** Every error [createHttpError] builds is a classified one. *)
Lemma createHttpError_classified (status : Z) (statusText : string)
    (message : option string) (data : option ResponseData)
    (headers : option (gmap string string)) :
  Err.instanceof (createHttpError status statusText message data headers)
    C_Crawl4AIError = true.
Proof.
  unfold createHttpError.
  repeat match goal with
         | |- context [if ?b then _ else _] => destruct b
         end; reflexivity.
Qed.

(** C6: at status 501, a status of the 5xx range, [createHttpError] builds
    the base error (kind Generic, status and status text kept), not a
    Server error: the [switch] lists 500, 502, 503 and 504 only. *)
Theorem createHttpError_501_generic (statusText : string)
    (message : option string) (data : option ResponseData)
    (headers : option (gmap string string)) :
  let e := createHttpError 501 statusText message data headers in
  kind_of e = Some Generic /\ kind_of e <> Some Server /\
  Err.name e = "Crawl4AIError" /\
  Err.status e = Some 501 /\ Err.statusText e = Some statusText /\
  Err.data e = data.
Proof. cbn. repeat split. discriminate. Qed.

(** ** Retry coordinator *)

Lemma instanceof_class_of_kind (e : Err.t) :
  kind_of e = None -> Err.instanceof e C_Crawl4AIError = false.
Proof.
  unfold kind_of, Err.instanceof.
  destruct (Err.cls e); intros H; try discriminate; reflexivity.
Qed.

Lemma instanceof_rate_limit_class (e : Err.t) :
  Err.instanceof e C_RateLimitError = true -> Err.cls e = C_RateLimitError.
Proof.
  unfold Err.instanceof. destruct (Err.cls e); cbn; intros H;
    try discriminate; reflexivity.
Qed.

Lemma unclassified_not_client_error (e : Err.t) :
  kind_of e = None -> is_client_error e = false.
Proof.
  intros H. unfold is_client_error.
  rewrite (instanceof_class_of_kind e H). reflexivity.
Qed.

(** Outside rate limiting the delay is the exponential one. *)
Lemma retry_delay_exponential (this : Config.t) (attempt : nat) (e : Err.t) :
  Err.cls e <> C_RateLimitError ->
  retry_delay this attempt e = Config.retryDelay this * 2 ^ Z.of_nat attempt.
Proof.
  intros Hcls. unfold retry_delay.
  destruct (Err.instanceof e C_RateLimitError) eqn:Hi; [| reflexivity].
  apply instanceof_rate_limit_class in Hi. contradiction.
Qed.

(** A rate-limit error without a retry-after keeps the exponential delay. *)
Lemma retry_delay_no_retry_after (this : Config.t) (attempt : nat) (e : Err.t) :
  Err.retryAfter e = None ->
  retry_delay this attempt e = Config.retryDelay this * 2 ^ Z.of_nat attempt.
Proof.
  intros Hr. unfold retry_delay. rewrite Hr.
  destruct (Err.instanceof e C_RateLimitError); reflexivity.
Qed.

(** A non-zero retry-after of [R] seconds overrides it with [R * 1000]. *)
Lemma retry_delay_retry_after (this : Config.t) (attempt : nat) (e : Err.t)
    (R : Z) :
  Err.cls e = C_RateLimitError ->
  Err.retryAfter e = Some (Num R) ->
  R <> 0 ->
  retry_delay this attempt e = R * 1000.
Proof.
  intros Hcls Hr HR. unfold retry_delay, Err.instanceof.
  rewrite Hcls, Hr. cbn.
  apply Z.eqb_neq in HR. rewrite HR. reflexivity.
Qed.

(** When every remaining attempt throws an error that does not stop the
    loop, the loop runs to its end, sleeps after each attempt but the last
    and throws the error of the last attempt. *)
Lemma retry_loop_all_fail (this : Config.t) (run : nat -> option Outcome)
    (e : nat -> Err.t) :
  (forall k, (k <= Config.retries this)%nat ->
     run k = Some (Throws (e k)) /\ is_client_error (e k) = false) ->
  forall (remaining attempt : nat) (lastError : Err.t) (tr : Trace),
    (attempt + remaining = S (Config.retries this))%nat ->
    retry_loop this run remaining attempt lastError tr =
      (Some (Throws (match remaining with
                     | O => lastError
                     | S _ => e (Config.retries this)
                     end)),
       {| attempts := (attempts tr + remaining)%nat;
          sleeps := (sleeps tr ++ backoff_schedule this e attempt)%list |}).
Proof.
  intros Hfail remaining.
  induction remaining as [| remaining IH]; intros attempt lastError tr Hsum.
  - cbn [retry_loop]. unfold backoff_schedule.
    replace (Config.retries this - attempt)%nat with 0%nat by lia.
    cbn. rewrite Nat.add_0_r, app_nil_r. destruct tr; reflexivity.
  - cbn [retry_loop].
    destruct (Hfail attempt ltac:(lia)) as [Hrun Hretry].
    rewrite Hrun, Hretry.
    rewrite IH by lia. f_equal.
    + destruct remaining as [| remaining']; [| reflexivity].
      replace attempt with (Config.retries this) by lia. reflexivity.
    + unfold backoff_schedule.
      destruct (attempt <? Config.retries this)%nat eqn:Hlt.
      * apply Nat.ltb_lt in Hlt.
        replace (Config.retries this - attempt)%nat
          with (S (Config.retries this - S attempt)) by lia.
        cbn [seq fmap list_fmap slept attempted attempts sleeps].
        f_equal; [lia |]. rewrite <- app_assoc. reflexivity.
      * apply Nat.ltb_ge in Hlt.
        replace (Config.retries this - attempt)%nat with 0%nat by lia.
        replace (Config.retries this - S attempt)%nat with 0%nat by lia.
        cbn. f_equal. lia.
Qed.

Lemma retry_run_all_fail (this : Config.t) (run : nat -> option Outcome)
    (e : nat -> Err.t) :
  (forall k, (k <= Config.retries this)%nat ->
     run k = Some (Throws (e k)) /\ is_client_error (e k) = false) ->
  retry_run this run =
    (Some (Throws (e (Config.retries this))),
     {| attempts := S (Config.retries this);
        sleeps := backoff_schedule this e 0 |}).
Proof.
  intros Hfail. unfold retry_run.
  rewrite (retry_loop_all_fail this run e Hfail) by lia.
  reflexivity.
Qed.

(** *** From one response to the outcome of [request] *)

Lemma request_try_decoded (this : Config.t) (endpoint : string)
    (options : Options.t) (r : Resp.t) (d : ResponseData) :
  decoded_body r = Some d ->
  request_try this endpoint options (Resolves r)
    = check_status this endpoint options r d.
Proof.
  unfold decoded_body, request_try.
  repeat match goal with
         | |- context [if ?b then _ else _] => destruct b
         end;
    try (destruct (Resp.parsed r); cbn);
    intros H; inversion H; subst; reflexivity.
Qed.

(** The [catch] lets an HTTP error through as it is. *)
Lemma request_catch_http_error (timeout : Z) (url : string) (this : Config.t)
    (endpoint : string) (options : Options.t) (r : Resp.t) (d : ResponseData) :
  request_catch timeout url (Throws (http_error this endpoint options r d))
    = Throws (http_error this endpoint options r d).
Proof.
  unfold http_error, createHttpError.
  repeat match goal with
         | |- context [if ?b then _ else _] => destruct b
         end; reflexivity.
Qed.

(** A response that fails the status predicate makes a throwing client
    throw the classified error. *)
Lemma request_throws_http_error (this : Config.t) (endpoint : string)
    (options : Options.t) (net : Exchange) (r : Resp.t) (d : ResponseData) :
  fetch net (requestSignal this options) = Some (Resolves r) ->
  decoded_body r = Some d ->
  Config.validateStatus this (Resp.status r) = false ->
  Config.throwOnError this = true ->
  request this endpoint options net
    = Some (Throws (http_error this endpoint options r d)).
Proof.
  intros Hfetch Hbody Hstatus Hthrow. unfold request.
  rewrite Hfetch, (request_try_decoded _ _ _ _ _ Hbody).
  unfold check_status. rewrite Hstatus, Hthrow. cbn [negb].
  rewrite request_catch_http_error. reflexivity.
Qed.

Lemma http_error_cls (this : Config.t) (endpoint : string)
    (options : Options.t) (r : Resp.t) (d : ResponseData) :
  Err.cls (http_error this endpoint options r d)
    = Err.cls (createHttpError (Resp.status r) (Resp.statusText r) None
                 (Some d) (Some (Resp.headers r))).
Proof. reflexivity. Qed.

Lemma http_error_status (this : Config.t) (endpoint : string)
    (options : Options.t) (r : Resp.t) (d : ResponseData) :
  Err.status (http_error this endpoint options r d)
    = Err.status (createHttpError (Resp.status r) (Resp.statusText r) None
                    (Some d) (Some (Resp.headers r))).
Proof. reflexivity. Qed.

(** *** The claims about the coordinator *)

(** C1, as the code has it: an error outside the taxonomy is retried like
    a transient failure.  When every attempt raises such an error the
    coordinator makes [retries + 1] attempts, sleeps [retryDelay * 2^a]
    after attempt [a] for every [a < retries], and lets the error of the
    last attempt propagate. *)
Theorem unclassified_errors_are_retried (this : Config.t) (endpoint : string)
    (options : Options.t) (net : nat -> Exchange) (e : nat -> Err.t) :
  (forall k, (k <= Config.retries this)%nat ->
     request this endpoint options (net k) = Some (Throws (e k)) /\
     kind_of (e k) = None) ->
  requestWithRetry this endpoint options net =
    (Some (Throws (e (Config.retries this))),
     {| attempts := S (Config.retries this);
        sleeps := (fun a => Config.retryDelay this * 2 ^ Z.of_nat a)
                    <$> seq 0 (Config.retries this) |}).
Proof.
  intros Hfail. unfold requestWithRetry.
  rewrite (retry_run_all_fail this _ e).
  - f_equal. f_equal. unfold backoff_schedule.
    rewrite Nat.sub_0_r.
    apply list_fmap_ext. intros i a Hia.
    apply lookup_seq in Hia as [-> Hlt]. cbn [Nat.add].
    apply retry_delay_exponential.
    destruct (Hfail i ltac:(lia)) as [_ Hk].
    unfold kind_of in Hk. intros Hc. rewrite Hc in Hk. discriminate.
  - intros k Hk. destruct (Hfail k Hk) as [Hrun Hkind].
    split; [exact Hrun | apply unclassified_not_client_error; exact Hkind].
Qed.

(** The same theorem at a server whose JSON never parses. *)
Lemma unclassified_errors_are_retried_witness :
  (forall k, (k <= Config.retries sample_client)%nat ->
     request sample_client "/crawl" Options.empty
       (always malformed_json_response k) = Some (Throws JsonSyntaxError) /\
     kind_of JsonSyntaxError = None) /\
  requestWithRetry sample_client "/crawl" Options.empty
    (always malformed_json_response) =
    (Some (Throws JsonSyntaxError),
     {| attempts := 4;
        sleeps := (fun a => 1000 * 2 ^ Z.of_nat a) <$> seq 0 3 |}).
Proof.
  split.
  - intros k _. split; vm_compute; reflexivity.
  - apply (unclassified_errors_are_retried sample_client "/crawl"
             Options.empty (always malformed_json_response)
             (fun _ => JsonSyntaxError)).
    intros k _. split; vm_compute; reflexivity.
Defined.

(** C1 fails on the code: the [SyntaxError] of a body that is not JSON is
    no classified error, yet with the default client it does not
    propagate on its first occurrence; four attempts are made and the
    coordinator sleeps 1000, 2000 and 4000 ms between them. *)
Lemma unclassified_error_retried_counterexample :
  kind_of JsonSyntaxError = None /\
  request sample_client "/crawl" Options.empty
    (always malformed_json_response 0%nat) = Some (Throws JsonSyntaxError) /\
  requestWithRetry sample_client "/crawl" Options.empty
    (always malformed_json_response) =
    (Some (Throws JsonSyntaxError),
     {| attempts := 4; sleeps := [1000; 2000; 4000] |}).
Proof. repeat split; vm_compute; reflexivity. Qed.

(** C3: with [retries = 3] and [retryDelay = 1000], when every attempt is
    answered with a 500 that the client throws on, the coordinator makes
    exactly four attempts, sleeps 1000, 2000 and 4000 ms between them and
    throws the Server error of the fourth attempt; with [retries = 0] it
    makes exactly one attempt and never sleeps, whatever the attempt does. *)
Theorem persistent_500_four_attempts :
  (forall (this : Config.t) (endpoint : string) (options : Options.t)
          (net : nat -> Exchange) (r : nat -> Resp.t),
     Config.retries this = 3%nat ->
     Config.retryDelay this = 1000 ->
     Config.throwOnError this = true ->
     Config.validateStatus this 500 = false ->
     (forall k, (k <= 3)%nat ->
        fetch (net k) (requestSignal this options) = Some (Resolves (r k)) /\
        Resp.status (r k) = 500 /\
        is_Some (decoded_body (r k))) ->
     exists last : Err.t,
       request this endpoint options (net 3%nat) = Some (Throws last) /\
       kind_of last = Some Server /\
       Err.status last = Some 500 /\
       requestWithRetry this endpoint options net =
         (Some (Throws last),
          {| attempts := 4; sleeps := [1000; 2000; 4000] |})) /\
  (forall (this : Config.t) (endpoint : string) (options : Options.t)
          (net : nat -> Exchange),
     Config.retries this = 0%nat ->
     attempts (snd (requestWithRetry this endpoint options net)) = 1%nat /\
     sleeps (snd (requestWithRetry this endpoint options net)) = []).
Proof.
  split.
  - intros this endpoint options net r Hretries Hdelay Hthrow Hvalid Hnet.
    assert (Hbody : forall k, (k <= 3)%nat ->
              exists d, decoded_body (r k) = Some d).
    { intros k Hk. destruct (Hnet k Hk) as (_ & _ & [d Hd]). eauto. }
    set (body k := default (DText "") (decoded_body (r k))).
    set (e k := http_error this endpoint options (r k) (body k)).
    assert (Hreq : forall k, (k <= 3)%nat ->
              request this endpoint options (net k) = Some (Throws (e k))).
    { intros k Hk. destruct (Hnet k Hk) as (Hfetch & Hstatus & _).
      destruct (Hbody k Hk) as [d Hd].
      apply request_throws_http_error; try assumption.
      - unfold body. rewrite Hd. reflexivity.
      - rewrite Hstatus. exact Hvalid. }
    assert (Hcls : forall k, (k <= 3)%nat ->
              Err.cls (e k) = C_ServerError /\ Err.status (e k) = Some 500).
    { intros k Hk. destruct (Hnet k Hk) as (_ & Hstatus & _).
      unfold e. rewrite http_error_cls, http_error_status, Hstatus.
      split; reflexivity. }
    exists (e 3%nat).
    split; [apply Hreq; lia |].
    split; [unfold kind_of; rewrite (proj1 (Hcls 3%nat ltac:(lia))); reflexivity |].
    split; [apply (Hcls 3%nat); lia |].
    unfold requestWithRetry.
    rewrite (retry_run_all_fail this _ e).
    + rewrite Hretries. f_equal. f_equal.
      unfold backoff_schedule. rewrite Hretries. cbn [Nat.sub seq fmap list_fmap].
      rewrite !retry_delay_exponential, Hdelay;
        [reflexivity | | | ];
        match goal with
        | |- Err.cls (e ?k) <> _ =>
            rewrite (proj1 (Hcls k ltac:(lia))); discriminate
        end.
    + rewrite Hretries. intros k Hk. split; [apply Hreq; exact Hk |].
      unfold is_client_error.
      rewrite (proj2 (Hcls k Hk)). cbn. apply andb_false_r.
  - intros this endpoint options net Hretries.
    unfold requestWithRetry, retry_run. rewrite Hretries.
    cbn [retry_loop].
    destruct (request this endpoint options (net 0%nat)) as [[v | err] |];
      [split; reflexivity | | split; reflexivity].
    destruct (is_client_error err); [split; reflexivity |].
    rewrite Hretries. cbn. split; reflexivity.
Qed.

(** The same theorem at the default client and a server that answers 500
    to every attempt. *)
Lemma persistent_500_four_attempts_witness :
  exists last : Err.t,
    kind_of last = Some Server /\
    requestWithRetry sample_client "/crawl" Options.empty
      (always (text_response 500 "Internal Server Error" ∅)) =
      (Some (Throws last), {| attempts := 4; sleeps := [1000; 2000; 4000] |}).
Proof.
  destruct (proj1 persistent_500_four_attempts sample_client "/crawl"
              Options.empty
              (always (text_response 500 "Internal Server Error" ∅))
              (fun _ => text_response 500 "Internal Server Error" ∅))
    as (last & _ & Hkind & _ & Hrun).
  - reflexivity.
  - reflexivity.
  - reflexivity.
  - reflexivity.
  - intros k _. repeat split. vm_compute. eauto.
  - exists last. split; assumption.
Defined.

(** C5: a classified failure whose status lies in [400, 500) and is not
    429 stops the coordinator at once.  Raised by the first attempt it
    gives exactly one attempt, no sleep, and the same error thrown; and at
    whatever attempt the loop meets it, the loop throws it without a
    sleep and without a further attempt. *)
Theorem client_error_single_attempt (this : Config.t) (endpoint : string)
    (options : Options.t) (net : nat -> Exchange) (e : Err.t) (status : Z) :
  Err.instanceof e C_Crawl4AIError = true ->
  Err.status e = Some status ->
  400 <= status < 500 ->
  status <> 429 ->
  (request this endpoint options (net 0%nat) = Some (Throws e) ->
   requestWithRetry this endpoint options net =
     (Some (Throws e), {| attempts := 1; sleeps := [] |})) /\
  (forall (remaining attempt : nat) (lastError : Err.t) (tr : Trace),
     request this endpoint options (net attempt) = Some (Throws e) ->
     retry_loop this (fun k => request this endpoint options (net k))
       (S remaining) attempt lastError tr =
       (Some (Throws e), attempted tr)).
Proof.
  intros Hinst Hstatus Hrange Hne.
  assert (Hstop : is_client_error e = true).
  { unfold is_client_error, CLIENT_ERROR_MIN, CLIENT_ERROR_MAX, RATE_LIMIT_STATUS.
    rewrite Hinst, Hstatus. cbn [andb].
    repeat (apply andb_true_intro; split);
      try apply negb_true_iff; lia. }
  split.
  - intros Hreq. unfold requestWithRetry, retry_run. cbn [retry_loop].
    rewrite Hreq, Hstop. reflexivity.
  - intros remaining attempt lastError tr Hreq. cbn [retry_loop].
    rewrite Hreq, Hstop. reflexivity.
Qed.

(** The same theorem at a 404 answered to the default client. *)
Lemma client_error_single_attempt_witness :
  let e := http_error sample_client "/crawl" Options.empty
             not_found_json_response
             (DJson (JObj {[ "detail" := JStr "missing" ]})) in
  kind_of e = Some NotFound /\
  requestWithRetry sample_client "/crawl" Options.empty
    (always not_found_json_response) =
    (Some (Throws e), {| attempts := 1; sleeps := [] |}).
Proof.
  split; [reflexivity |].
  apply (client_error_single_attempt sample_client "/crawl" Options.empty
           (always not_found_json_response) _ 404).
  - reflexivity.
  - reflexivity.
  - lia.
  - lia.
  - vm_compute. reflexivity.
Defined.

(** C4: a 429 that carries [retry-after: 0] is a RateLimit error with a
    known retry-after of 0 seconds, and the coordinator still sleeps the
    exponential delay (1000 ms at attempt 0) instead of 0 ms, because the
    override is guarded by the truthiness of [retryAfter]. *)
Theorem retry_after_zero_keeps_exponential_delay :
  let e := createHttpError 429 "Too Many Requests" None None
             (Some {[ "retry-after" := "0" ]}) in
  kind_of e = Some RateLimit /\
  Err.retryAfter e = Some (Num 0) /\
  retry_delay sample_client 0 e = 1000 /\
  snd (requestWithRetry sample_client "/crawl" Options.empty rate_limited_once)
    = {| attempts := 2; sleeps := [1000] |}.
Proof. repeat split; vm_compute; reflexivity. Qed.

(** ** Transport executor *)

(** C2 fails on the code: a client with [throwOnError: false] that
    receives a 404, which the status predicate rejects, resolves to the
    decoded body of the response, not to the classified error. *)
Lemma quiet_client_returns_body_counterexample :
  Config.throwOnError quiet_client = false /\
  Config.validateStatus quiet_client 404 = false /\
  request quiet_client "/crawl" Options.empty
    (Settles 20 (Resolves not_found_json_response)) =
    Some (Returns (VData (DJson (JObj {[ "detail" := JStr "missing" ]})))).
Proof. repeat split; vm_compute; reflexivity. Qed.

(** C2, as the code has it: with [throwOnError = false], a response that
    fails the status predicate makes [request] resolve to the decoded
    body, the value a successful response would give; the classified
    error is built and dropped, and no error object is ever the result. *)
Theorem quiet_client_returns_decoded_body (this : Config.t)
    (endpoint : string) (options : Options.t) (net : Exchange) (r : Resp.t)
    (d : ResponseData) :
  Config.throwOnError this = false ->
  fetch net (requestSignal this options) = Some (Resolves r) ->
  Config.validateStatus this (Resp.status r) = false ->
  decoded_body r = Some d ->
  request this endpoint options net = Some (Returns (VData d)) /\
  forall e : Err.t,
    request this endpoint options net <> Some (Returns (VError e)).
Proof.
  intros Hquiet Hfetch Hstatus Hbody.
  assert (Hreq : request this endpoint options net = Some (Returns (VData d))).
  { unfold request.
    rewrite Hfetch, (request_try_decoded _ _ _ _ _ Hbody).
    unfold check_status. rewrite Hstatus, Hquiet. reflexivity. }
  split; [exact Hreq |].
  intros e He. rewrite Hreq in He. discriminate.
Qed.

(** The same theorem at a 404 answered to the client that does not throw. *)
Lemma quiet_client_returns_decoded_body_witness :
  request quiet_client "/crawl" Options.empty
    (Settles 20 (Resolves not_found_json_response)) =
    Some (Returns (VData (DJson (JObj {[ "detail" := JStr "missing" ]})))).
Proof.
  apply (quiet_client_returns_decoded_body quiet_client "/crawl" Options.empty
           (Settles 20 (Resolves not_found_json_response))
           not_found_json_response).
  - reflexivity.
  - reflexivity.
  - reflexivity.
  - vm_compute. reflexivity.
Defined.

Lemma request_catch_abort (timeout : Z) (url : string) :
  request_catch timeout url (Throws AbortError)
    = Throws (TimeoutError timeout (Some url)).
Proof. reflexivity. Qed.

(** C8: without a signal of the caller, a request that the deadline timer
    aborts throws a [TimeoutError], of kind Timeout and not Network, whose
    [timeout] is the timeout in force (the configured one unless the call
    overrides it) and whose message names the resolved URL. *)
Theorem deadline_abort_raises_timeout (this : Config.t) (endpoint : string)
    (options : Options.t) (net : Exchange) :
  Options.signal options = None ->
  deadline_first (request_timeout this options) net ->
  let timeout := request_timeout this options in
  let url := request_url this endpoint in
  let e := TimeoutError timeout (Some url) in
  request this endpoint options net = Some (Throws e) /\
  kind_of e = Some Timeout /\
  kind_of e <> Some Network /\
  Err.timeout e = Some timeout /\
  (Options.timeout options = None -> Err.timeout e = Some (Config.timeout this)) /\
  (url <> "" ->
   Err.message e =
     "Request to " +:+ url +:+ " timed out after " +:+ Js.toString timeout +:+ "ms").
Proof.
  intros Hsignal Hdeadline timeout url e.
  split; [| split; [reflexivity | split; [discriminate | split; [reflexivity |]]]].
  - unfold request, requestSignal, controller_signal. rewrite Hsignal.
    fold timeout. fold url.
    destruct net as [| t s]; cbn [fetch aborts_at].
    + cbn [request_try]. rewrite request_catch_abort. reflexivity.
    + unfold deadline_first in Hdeadline. fold timeout in Hdeadline.
      apply Z.leb_le in Hdeadline. rewrite Hdeadline.
      cbn [request_try]. rewrite request_catch_abort. reflexivity.
  - split.
    + intros Hnone. unfold e, timeout, request_timeout. rewrite Hnone. reflexivity.
    + intros Hurl. unfold e, TimeoutError. cbn [Err.message].
      destruct url; [congruence | reflexivity].
Qed.

(** The same theorem at a deadline of 1 ms and a server that never answers. *)
Lemma deadline_abort_raises_timeout_witness :
  request sample_client "/crawl" one_ms_deadline Never =
    Some (Throws (TimeoutError 1 (Some "https://example.com/crawl"))) /\
  Err.message (TimeoutError 1 (Some "https://example.com/crawl")) =
    "Request to https://example.com/crawl timed out after 1ms".
Proof.
  split.
  - apply (deadline_abort_raises_timeout sample_client "/crawl"
             one_ms_deadline Never).
    + reflexivity.
    + exact I.
  - reflexivity.
Defined.



(** ** Stream decoder *)

Section StreamDecoderProperties.

Import StreamDecoder.
#[local] Open Scope list_scope.

Implicit Types (s t buf frame rest : text) (c : ascii).

(** Case analysis on the characters a scan looks at. *)
Ltac split_chars :=
  repeat match goal with
         | |- context [Ascii.eqb ?c ?d] =>
             is_var c; destruct (Ascii.eqb_spec c d); subst
         | H : context [Ascii.eqb ?c ?d] |- _ =>
             is_var c; destruct (Ascii.eqb_spec c d); subst
         end.

Lemma line_break_app s t r :
  line_break s = Some r -> line_break (s ++ t) = Some (r ++ t).
Proof.
  destruct s as [| c1 [| c2 s]]; cbn; split_chars; cbn;
    intros H; inversion H; subst; reflexivity.
Qed.

Lemma line_break_shorter s r :
  line_break s = Some r -> (length r < length s)%nat.
Proof.
  destruct s as [| c1 [| c2 s]]; cbn; split_chars; cbn;
    intros H; inversion H; subst; cbn; lia.
Qed.

Lemma terminator_app s t r :
  terminator s = Some r -> terminator (s ++ t) = Some (r ++ t).
Proof.
  unfold terminator. destruct (line_break s) as [r1 |] eqn:H1; [| discriminate].
  intros H2. rewrite (line_break_app _ t _ H1). apply line_break_app, H2.
Qed.

Lemma terminator_shorter s r :
  terminator s = Some r -> (length r < length s)%nat.
Proof.
  unfold terminator. destruct (line_break s) as [r1 |] eqn:H1; [| discriminate].
  intros H2. apply line_break_shorter in H1, H2. lia.
Qed.

(** Text that holds a complete frame is long enough for the terminator
    test at its head to be settled: appending cannot create a terminator
    in front of the first one. *)
Lemma terminator_none_app c s t :
  terminator (c :: s) = None ->
  is_Some (split_frame s) ->
  terminator (c :: s ++ t) = None.
Proof.
  intros Hnone [fr Hsome].
  destruct s as [| c2 [| c3 [| c4 s]]].
  - discriminate.
  - exfalso. revert Hsome. cbn. unfold terminator, line_break.
    split_chars; discriminate.
  - revert Hnone Hsome. cbn. unfold terminator, line_break.
    split_chars; cbn; try discriminate; try reflexivity;
      split_chars; cbn; try discriminate; reflexivity.
  - clear Hsome. revert Hnone. cbn. unfold terminator, line_break.
    split_chars; cbn; try discriminate; try reflexivity;
      split_chars; cbn; try discriminate; reflexivity.
Qed.

(** The first frame of a buffer stays the first frame when more text
    arrives. *)
Lemma split_frame_app s t frame rest :
  split_frame s = Some (frame, rest) ->
  split_frame (s ++ t) = Some (frame, rest ++ t).
Proof.
  revert frame.
  induction s as [| c s IH]; intros frame; [discriminate |].
  cbn [split_frame app].
  destruct (terminator (c :: s)) as [r |] eqn:Hterm.
  - intros H. inversion H; subst.
    change (c :: s ++ t) with ((c :: s) ++ t).
    rewrite (terminator_app _ t _ Hterm). reflexivity.
  - destruct (split_frame s) as [[f r] |] eqn:Hs; [| discriminate].
    intros H. inversion H; subst.
    rewrite (terminator_none_app c s t Hterm) by (rewrite Hs; eauto).
    rewrite (IH f eq_refl). reflexivity.
Qed.

Lemma split_frame_shorter s frame rest :
  split_frame s = Some (frame, rest) -> (length rest < length s)%nat.
Proof.
  revert frame.
  induction s as [| c s IH]; intros frame; [discriminate |].
  cbn [split_frame].
  destruct (terminator (c :: s)) as [r |] eqn:Hterm.
  - intros H. inversion H; subst. apply terminator_shorter, Hterm.
  - destruct (split_frame s) as [[f r] |] eqn:Hs; [| discriminate].
    intros H. inversion H; subst.
    specialize (IH f eq_refl). cbn. lia.
Qed.

(** Enough fuel is as good as more. *)
Lemma drain_fuel_enough (n m : nat) buf :
  (length buf <= n)%nat -> (length buf <= m)%nat ->
  drain_fuel n buf = drain_fuel m buf.
Proof.
  revert m buf.
  induction n as [| n IH]; intros m buf Hn Hm.
  - destruct buf; [| cbn in Hn; lia]. destruct m; reflexivity.
  - destruct m as [| m].
    + destruct buf; [| cbn in Hm; lia]. reflexivity.
    + cbn [drain_fuel].
      destruct (split_frame buf) as [[f r] |] eqn:Hs; [| reflexivity].
      apply split_frame_shorter in Hs.
      rewrite (IH m r) by lia. reflexivity.
Qed.

Lemma drain_none buf :
  split_frame buf = None -> drain buf = ([], buf).
Proof.
  intros H. unfold drain. destruct (length buf); [reflexivity |].
  cbn [drain_fuel]. rewrite H. reflexivity.
Qed.

Lemma drain_some buf frame rest :
  split_frame buf = Some (frame, rest) ->
  drain buf = (parse_frame frame :: (drain rest).1, (drain rest).2).
Proof.
  intros H. unfold drain.
  pose proof (split_frame_shorter _ _ _ H) as Hlen.
  destruct (length buf) as [| n] eqn:Hn; [lia |].
  cbn [drain_fuel]. rewrite H.
  rewrite (drain_fuel_enough n (length rest) rest) by lia.
  destruct (drain_fuel (length rest) rest). reflexivity.
Qed.

(** What [drain] leaves pending holds no complete frame: the fuel never
    runs out before the buffer is exhausted. *)
Lemma drain_pending_incomplete buf :
  split_frame (drain buf).2 = None.
Proof.
  remember (length buf) as n eqn:Hn.
  revert buf Hn.
  induction n as [n IH] using lt_wf_ind; intros buf Hn.
  destruct (split_frame buf) as [[f r] |] eqn:Hs.
  - rewrite (drain_some _ _ _ Hs). cbn [snd].
    apply (IH (length r)); [| reflexivity].
    apply split_frame_shorter in Hs. lia.
  - rewrite (drain_none _ Hs). exact Hs.
Qed.

(** Draining a buffer that grew is draining what was there and then
    what is pending together with the new text. *)
Lemma drain_app buf t :
  drain (buf ++ t) =
    ((drain buf).1 ++ (drain ((drain buf).2 ++ t)).1,
     (drain ((drain buf).2 ++ t)).2).
Proof.
  remember (length buf) as n eqn:Hn.
  revert buf Hn.
  induction n as [n IH] using lt_wf_ind; intros buf Hn.
  destruct (split_frame buf) as [[f r] |] eqn:Hs.
  - rewrite (drain_some _ _ _ Hs).
    rewrite (drain_some _ _ _ (split_frame_app _ t _ _ Hs)).
    cbn [fst snd].
    rewrite (IH (length r)); [reflexivity | | reflexivity].
    apply split_frame_shorter in Hs. lia.
  - rewrite (drain_none _ Hs). cbn [fst snd app].
    destruct (drain (buf ++ t)). reflexivity.
Qed.

(** The decoder sees the concatenation of its chunks. *)
Lemma decode_from_concat buf (chunks : list text) :
  split_frame buf = None ->
  decode_from buf chunks = drain (buf ++ concat chunks).
Proof.
  revert buf.
  induction chunks as [| chunk chunks IH]; intros buf Hbuf.
  - cbn. rewrite app_nil_r, (drain_none _ Hbuf). reflexivity.
  - cbn [decode_from concat]. unfold feed.
    rewrite app_assoc, (drain_app (buf ++ chunk)).
    destruct (drain (buf ++ chunk)) as [events buf'] eqn:Hfeed.
    cbn [fst snd].
    rewrite IH.
    + destruct (drain (buf' ++ concat chunks)). reflexivity.
    + pose proof (drain_pending_incomplete (buf ++ chunk)) as Hp.
      rewrite Hfeed in Hp. exact Hp.
Qed.

Lemma split_lines_nonempty t : split_lines t <> [].
Proof.
  destruct t as [| c t]; cbn; [discriminate |].
  destruct (Ascii.eqb c LF); [discriminate |].
  destruct (split_lines t); discriminate.
Qed.

(** An LF separates the lines before it from the lines after it. *)
Lemma split_lines_app s t :
  split_lines (s ++ LF :: t) = split_lines s ++ split_lines t.
Proof.
  induction s as [| c s IH]; [reflexivity |].
  cbn [app split_lines]. rewrite IH.
  destruct (Ascii.eqb c LF); [reflexivity |].
  pose proof (split_lines_nonempty s) as Hne.
  destruct (split_lines s); [contradiction | reflexivity].
Qed.

Lemma split_lines_no_lf s : no_lf s = true -> split_lines s = [s].
Proof.
  induction s as [| c s IH]; [reflexivity |].
  cbn. intros H. apply andb_prop in H as [Hc Hs].
  apply negb_true_iff in Hc. rewrite Hc, (IH Hs). reflexivity.
Qed.

Lemma is_plain_no_lf s : is_plain s = true -> no_lf s = true.
Proof.
  unfold is_plain, no_lf.
  induction s as [| c s IH]; [reflexivity |].
  cbn. intros H. apply andb_prop in H as [Hc Hs].
  apply andb_prop in Hc as [Hlf _]. rewrite Hlf, (IH Hs). reflexivity.
Qed.

Lemma strip_cr_plain s : is_plain s = true -> strip_cr s = s.
Proof.
  induction s as [| c s IH]; [reflexivity |].
  intros H. cbn in H. apply andb_prop in H as [Hc Hs].
  apply andb_prop in Hc as [_ Hcr]. apply negb_true_iff in Hcr.
  destruct s as [| d s]; [cbn; rewrite Hcr; reflexivity |].
  change (strip_cr (c :: d :: s)) with (c :: strip_cr (d :: s)).
  rewrite (IH Hs). reflexivity.
Qed.

Lemma data_line_plain v : is_plain v = true -> is_plain (data_line v) = true.
Proof. intros H. cbn. exact H. Qed.

(** A [data:] line adds its value after the data read so far. *)
Lemma apply_line_data (b : Builder) v :
  apply_line b (data_line v) =
    {| b_event := b_event b; b_data := b_data b ++ [v];
       b_id := b_id b; b_retry := b_retry b |}.
Proof. reflexivity. Qed.

Lemma fold_data_lines (vs : list text) (b : Builder) :
  fold_left apply_line (data_line <$> vs) b =
    {| b_event := b_event b; b_data := b_data b ++ vs;
       b_id := b_id b; b_retry := b_retry b |}.
Proof.
  revert b. induction vs as [| v vs IH]; intros b.
  - cbn. rewrite app_nil_r. destruct b; reflexivity.
  - cbn [fmap list_fmap fold_left]. rewrite apply_line_data, IH.
    cbn. rewrite <- app_assoc. reflexivity.
Qed.

Lemma split_lines_join (ls : list text) :
  Forall (fun l => no_lf l = true) ls -> ls <> [] ->
  split_lines (join_lines ls) = ls.
Proof.
  induction ls as [| l ls IH]; [congruence |].
  intros Hall _. inversion Hall as [| ? ? Hl Hls]; subst.
  destruct ls as [| l' ls].
  - cbn. apply split_lines_no_lf, Hl.
  - change (join_lines (l :: l' :: ls)) with (l ++ LF :: join_lines (l' :: ls)).
    rewrite split_lines_app, (split_lines_no_lf _ Hl), IH by (assumption || discriminate).
    reflexivity.
Qed.

(** A frame of [data:] lines decodes to their values joined by LF. *)
Lemma parse_frame_data_lines (vs : list text) :
  Forall (fun v => is_plain v = true) vs ->
  parse_frame (join_lines (data_line <$> vs)) =
    {| event := None; data := join_lines vs; id := None; retry := None |}.
Proof.
  intros Hall. unfold parse_frame.
  destruct vs as [| v vs]; [reflexivity |].
  rewrite split_lines_join.
  - assert (Hstrip : strip_cr <$> (data_line <$> (v :: vs)) = data_line <$> (v :: vs)).
    { rewrite <- list_fmap_compose. apply Forall_fmap_ext_1.
      eapply Forall_impl; [exact Hall |].
      intros x Hx. unfold compose. apply strip_cr_plain, data_line_plain, Hx. }
    rewrite Hstrip, fold_data_lines. reflexivity.
  - apply Forall_fmap. eapply Forall_impl; [exact Hall |].
    intros x Hx. apply is_plain_no_lf, data_line_plain, Hx.
  - discriminate.
Qed.

(** A line whose field name is not known leaves the event as it is. *)
Lemma apply_line_ignored (b : Builder) (line : text) :
  recognized (field_of line) = false ->
  apply_line b (strip_cr line) = b.
Proof.
  unfold field_of, recognized, apply_line. intros H.
  destruct (strip_cr line) as [| c l]; [reflexivity |].
  destruct (Ascii.eqb c ":"); [reflexivity |].
  destruct (split_colon (c :: l)) as [f raw]. cbn [fst] in H.
  repeat (apply orb_false_elim in H as [H ?]).
  repeat match goal with
         | Hf : field_is f _ = false |- _ => rewrite Hf; clear Hf
         end.
  reflexivity.
Qed.

Lemma parse_frame_ignores_middle (before line after : text) :
  no_lf line = true -> recognized (field_of line) = false ->
  parse_frame (before ++ LF :: line ++ LF :: after)
    = parse_frame (before ++ LF :: after).
Proof.
  intros Hlf Hfield. unfold parse_frame.
  rewrite !split_lines_app, (split_lines_no_lf _ Hlf).
  rewrite !fmap_app, !fold_left_app. cbn [fmap list_fmap fold_left].
  rewrite apply_line_ignored by exact Hfield. reflexivity.
Qed.

Lemma parse_frame_ignores_first (line after : text) :
  no_lf line = true -> recognized (field_of line) = false ->
  parse_frame (line ++ LF :: after) = parse_frame after.
Proof.
  intros Hlf Hfield. unfold parse_frame.
  rewrite split_lines_app, (split_lines_no_lf _ Hlf).
  cbn [app fmap list_fmap fold_left].
  rewrite apply_line_ignored by exact Hfield. reflexivity.
Qed.

Lemma parse_frame_ignores_last (before line : text) :
  no_lf line = true -> recognized (field_of line) = false ->
  parse_frame (before ++ LF :: line) = parse_frame before.
Proof.
  intros Hlf Hfield. unfold parse_frame.
  rewrite split_lines_app, (split_lines_no_lf _ Hlf).
  rewrite fmap_app, fold_left_app. cbn [fmap list_fmap fold_left].
  rewrite apply_line_ignored by exact Hfield. reflexivity.
Qed.

End StreamDecoderProperties.

(** C9: the decoder is chunk-boundary invariant: however the input is cut
    into chunks, the events and the text left pending are those of the
    input decoded in one piece; a frame of [data:] lines decodes to their
    values joined by exactly one line break each, in order; and a line
    with an unknown field name changes nothing in the event of its frame,
    wherever it stands. *)
Theorem stream_decoder_chunk_invariant :
  (forall (input : StreamDecoder.text) (chunks : list StreamDecoder.text),
     concat chunks = input ->
     StreamDecoder.decode chunks = StreamDecoder.decode [input]) /\
  (forall vs : list StreamDecoder.text,
     Forall (fun v => StreamDecoder.is_plain v = true) vs ->
     StreamDecoder.parse_frame
       (StreamDecoder.join_lines (StreamDecoder.data_line <$> vs)) =
       {| StreamDecoder.event := None;
          StreamDecoder.data := StreamDecoder.join_lines vs;
          StreamDecoder.id := None;
          StreamDecoder.retry := None |}) /\
  (forall before line after : StreamDecoder.text,
     StreamDecoder.no_lf line = true ->
     StreamDecoder.recognized (StreamDecoder.field_of line) = false ->
     StreamDecoder.parse_frame
       (before ++ StreamDecoder.LF :: line ++ StreamDecoder.LF :: after)%list
       = StreamDecoder.parse_frame (before ++ StreamDecoder.LF :: after)%list /\
     StreamDecoder.parse_frame (line ++ StreamDecoder.LF :: after)%list
       = StreamDecoder.parse_frame after /\
     StreamDecoder.parse_frame (before ++ StreamDecoder.LF :: line)%list
       = StreamDecoder.parse_frame before).
Proof.
  split; [| split].
  - intros input chunks <-. unfold StreamDecoder.decode.
    rewrite !decode_from_concat by reflexivity.
    cbn [concat]. rewrite app_nil_r. reflexivity.
  - exact parse_frame_data_lines.
  - intros before line after Hlf Hfield. split; [| split].
    + apply parse_frame_ignores_middle; assumption.
    + apply parse_frame_ignores_first; assumption.
    + apply parse_frame_ignores_last; assumption.
Qed.


(** The same theorem at a stream of two frames cut inside a field name and
    inside a terminator, at the frame [data: a], [data: b], and at a frame
    with a [foo:] line between its [event:] and [data:] lines. *)
Lemma stream_decoder_chunk_invariant_witness :
  let LF := StreamDecoder.LF in
  let txt := StreamDecoder.txt in
  StreamDecoder.decode
    [(txt "data: a" ++ LF :: txt "da")%list;
     (txt "ta: b" ++ [LF])%list;
     (LF :: txt "id: 7" ++ [LF; LF] ++ txt "data: c")%list]
  = ([{| StreamDecoder.event := None;
         StreamDecoder.data := (txt "a" ++ LF :: txt "b")%list;
         StreamDecoder.id := None; StreamDecoder.retry := None |};
      {| StreamDecoder.event := None; StreamDecoder.data := [];
         StreamDecoder.id := Some (txt "7"); StreamDecoder.retry := None |}],
     txt "data: c") /\
  StreamDecoder.data
    (StreamDecoder.parse_frame (txt "data: a" ++ LF :: txt "data: b")%list)
    = (txt "a" ++ LF :: txt "b")%list /\
  StreamDecoder.parse_frame
    (txt "event: e" ++ LF :: txt "foo: x" ++ LF :: txt "data: a")%list
    = StreamDecoder.parse_frame (txt "event: e" ++ LF :: txt "data: a")%list.
Proof.
  intros LF txt.
  destruct stream_decoder_chunk_invariant as (Hchunks & Hdata & Hunknown).
  split; [| split].
  - rewrite (Hchunks
               (txt "data: a" ++ LF :: txt "data: b" ++ [LF; LF]
                  ++ txt "id: 7" ++ [LF; LF] ++ txt "data: c")%list)
      by reflexivity.
    vm_compute. reflexivity.
  - change (txt "data: a" ++ LF :: txt "data: b")%list
      with (StreamDecoder.join_lines
              (StreamDecoder.data_line <$> [txt "a"; txt "b"])).
    rewrite Hdata; [reflexivity |].
    repeat constructor.
  - apply (Hunknown (txt "event: e") (txt "foo: x") (txt "data: a"));
      reflexivity.
Defined.

(** ** Evaluation checks *)

Example parseInt_seconds : Js.parseInt "120" = Num 120.
Proof. reflexivity. Qed.

Example parseInt_http_date : Js.parseInt "Wed, 21 Oct 2015 07:28:00 GMT" = NaN.
Proof. reflexivity. Qed.

Example parseInt_leading_space_and_sign : Js.parseInt "  -7s" = Num (-7).
Proof. reflexivity. Qed.

Example retry_after_30_overrides :
  retry_delay sample_client 2
    (createHttpError 429 "Too Many Requests" None None
       (Some {[ "retry-after" := "30" ]})) = 30000.
Proof. vm_compute. reflexivity. Qed.

Example event_stream_skips_status_check :
  request sample_client "/crawl/stream" Options.empty
    (Settles 20 (Resolves
       {| Resp.status := 500; Resp.statusText := "Internal Server Error";
          Resp.headers := {[ "content-type" := "text/event-stream" ]};
          Resp.text := ""; Resp.parsed := None |}))
  = Some (Returns (VResponse
       {| Resp.status := 500; Resp.statusText := "Internal Server Error";
          Resp.headers := {[ "content-type" := "text/event-stream" ]};
          Resp.text := ""; Resp.parsed := None |})).
Proof. vm_compute. reflexivity. Qed.

Example network_failure_is_wrapped :
  kind_of <$>
    (match request sample_client "/crawl" Options.empty
             (Settles 3 (Rejects (BuiltinError C_TypeError "TypeError" "fetch failed")))
     with
     | Some (Throws e) => Some e
     | _ => None
     end) = Some (Some Network).
Proof. vm_compute. reflexivity. Qed.

Example crlf_frames_decode :
  StreamDecoder.decode
    [[StreamDecoder.CR; StreamDecoder.LF; StreamDecoder.CR; StreamDecoder.LF];
     (StreamDecoder.txt "event: done"
        ++ [StreamDecoder.CR; StreamDecoder.LF]
        ++ StreamDecoder.txt "data:1"
        ++ [StreamDecoder.CR; StreamDecoder.LF; StreamDecoder.CR])%list;
     [StreamDecoder.LF]]
  = ([{| StreamDecoder.event := None; StreamDecoder.data := [];
         StreamDecoder.id := None; StreamDecoder.retry := None |};
      {| StreamDecoder.event := Some (StreamDecoder.txt "done");
         StreamDecoder.data := StreamDecoder.txt "1";
         StreamDecoder.id := None; StreamDecoder.retry := None |}], []).
Proof. vm_compute. reflexivity. Qed.

(** * Further properties of the code *)

(** ** Error classes *)

Lemma createHttpError_status (status : Z) (statusText : string)
    (message : option string) (data : option ResponseData)
    (headers : option (gmap string string)) :
  Err.status (createHttpError status statusText message data headers)
    = Some status.
Proof.
  unfold createHttpError.
  destruct (status =? 400) eqn:H400; [apply Z.eqb_eq in H400; subst; reflexivity |].
  destruct (status =? 401) eqn:H401; [apply Z.eqb_eq in H401; subst; reflexivity |].
  destruct (status =? 403) eqn:H403; [apply Z.eqb_eq in H403; subst; reflexivity |].
  destruct (status =? 404) eqn:H404; [apply Z.eqb_eq in H404; subst; reflexivity |].
  destruct (status =? 429) eqn:H429; [apply Z.eqb_eq in H429; subst; reflexivity |].
  destruct ((status =? 500) || (status =? 502) || (status =? 503) || (status =? 504));
    reflexivity.
Qed.

(** X1: whatever the status, the error [createHttpError] builds is a
    [Crawl4AIError] that carries that status. *)
Theorem createHttpError_keeps_status (status : Z) (statusText : string)
    (message : option string) (data : option ResponseData)
    (headers : option (gmap string string)) :
  let e := createHttpError status statusText message data headers in
  isCrawl4AIError e = true /\ Err.status e = Some status.
Proof.
  cbn zeta. split;
    [apply createHttpError_classified | apply createHttpError_status].
Qed.

(** X2: the decoded body of the response survives on the error only when
    the error is the base [Crawl4AIError] (kind Generic); every subclass
    that [createHttpError] builds has no [data]. *)
Theorem createHttpError_body_only_on_generic (status : Z) (statusText : string)
    (message : option string) (data : option ResponseData)
    (headers : option (gmap string string)) :
  let e := createHttpError status statusText message data headers in
  Err.data e = match kind_of e with
               | Some Generic => data
               | _ => None
               end.
Proof.
  cbn zeta. unfold createHttpError.
  repeat match goal with
         | |- context [if ?b then _ else _] => destruct b
         end; reflexivity.
Qed.

(** X3: the type guards follow the kinds: [isCrawl4AIError] holds of the
    classified errors and of no built-in error, [isRateLimitError] and
    [isAuthError] of their kind only, and [isNetworkError] of the Network
    kind and of the Timeout kind, its specialization. *)
Theorem type_guards_follow_kinds (e : Err.t) :
  (isCrawl4AIError e = true <-> kind_of e <> None) /\
  (isRateLimitError e = true <-> kind_of e = Some RateLimit) /\
  (isAuthError e = true <-> kind_of e = Some Auth) /\
  (isNetworkError e = true <->
     kind_of e = Some Network \/ kind_of e = Some Timeout).
Proof.
  unfold isCrawl4AIError, isRateLimitError, isAuthError, isNetworkError,
    Err.instanceof, kind_of.
  destruct (Err.cls e); cbn;
    repeat split; intros; try discriminate; try congruence; try reflexivity;
    try (left; reflexivity); try (right; reflexivity);
    try (match goal with H : _ \/ _ |- _ => destruct H; discriminate end).
Qed.

(** ** Transport executor, beyond the claims *)




(** X5: a rejection of [fetch] by a [TypeError] whose message mentions
    [fetch] surfaces as a [NetworkError] that wraps it as its cause;
    a rejection by an error that is neither that nor named [AbortError]
    surfaces unchanged. *)
Theorem fetch_rejections_surface (this : Config.t) (endpoint : string)
    (options : Options.t) (net : Exchange) (e : Err.t) :
  fetch net (requestSignal this options) = Some (Rejects e) ->
  Err.name e <> "AbortError" ->
  (Err.cls e = C_TypeError -> Js.includes (Err.message e) "fetch" = true ->
   request this endpoint options net =
     Some (Throws (NetworkError ("Network request failed: " +:+ Err.message e)
                     (Some e)))) /\
  (Err.cls e <> C_TypeError \/ Js.includes (Err.message e) "fetch" = false ->
   request this endpoint options net = Some (Throws e)).
Proof.
  intros Hfetch Hname. unfold request. rewrite Hfetch.
  cbn [request_try request_catch].
  apply String.eqb_neq in Hname. rewrite Hname, andb_false_r.
  split.
  - intros Hcls Hmsg. unfold Err.instanceof. rewrite Hcls, Hmsg. reflexivity.
  - intros [Hcls | Hmsg].
    + assert (Hinst : Err.instanceof e C_TypeError = false).
      { unfold Err.instanceof. destruct (Err.cls e); try reflexivity.
        contradiction. }
      rewrite Hinst. reflexivity.
    + rewrite Hmsg, andb_false_r. reflexivity.
Qed.

(** The same theorem at a connection that is refused and at a rejection
    by a plain error. *)
Lemma fetch_rejections_surface_witness :
  kind_of <$>
    (match request sample_client "/crawl" Options.empty
             (Settles 3 (Rejects (BuiltinError C_TypeError "TypeError"
                                    "fetch failed"))) with
     | Some (Throws e) => Some e
     | _ => None
     end) = Some (Some Network) /\
  request sample_client "/crawl" Options.empty
    (Settles 3 (Rejects (BuiltinError C_Error "Error" "boom")))
  = Some (Throws (BuiltinError C_Error "Error" "boom")).
Proof.
  split.
  - rewrite (proj1 (fetch_rejections_surface sample_client "/crawl"
                      Options.empty
                      (Settles 3 (Rejects (BuiltinError C_TypeError "TypeError"
                                             "fetch failed")))
                      (BuiltinError C_TypeError "TypeError" "fetch failed")
                      eq_refl ltac:(discriminate)) eq_refl eq_refl).
    reflexivity.
  - apply (fetch_rejections_surface sample_client "/crawl" Options.empty
             (Settles 3 (Rejects (BuiltinError C_Error "Error" "boom")))
             (BuiltinError C_Error "Error" "boom") eq_refl ltac:(discriminate)).
    left. discriminate.
Defined.

(** X6: an answer announced as an event stream (and as nothing else the
    branches test before) is handed back as the raw response before the
    status is looked at: whatever its status and whatever
    [validateStatus] and [throwOnError] say, [request] returns it. *)
Theorem event_stream_bypasses_status_check (this : Config.t)
    (endpoint : string) (options : Options.t) (net : Exchange) (r : Resp.t)
    (contentType : string) :
  fetch net (requestSignal this options) = Some (Resolves r) ->
  Resp.headers r !! "content-type" = Some contentType ->
  Js.includes contentType "text/event-stream" = true ->
  Js.includes contentType "application/json" = false ->
  Js.includes contentType "text/html" = false ->
  Js.includes contentType "text/plain" = false ->
  request this endpoint options net = Some (Returns (VResponse r)).
Proof.
  intros Hfetch Hct Hsse Hjson Hhtml Hplain.
  unfold request. rewrite Hfetch. unfold request_try, truthy_header.
  rewrite Hct.
  assert (Htruthy : Js.truthy_str contentType = true).
  { destruct contentType; [discriminate Hsse | reflexivity]. }
  rewrite Htruthy. cbn [from_option id].
  rewrite Hjson, Hhtml, Hplain, Hsse. reflexivity.
Qed.

(** The same theorem at a 500 sent as an event stream to the default
    client, which throws on a 500 of any other content type. *)
Lemma event_stream_bypasses_status_check_witness :
  let r := {| Resp.status := 500; Resp.statusText := "Internal Server Error";
              Resp.headers := {[ "content-type" := "text/event-stream" ]};
              Resp.text := ""; Resp.parsed := None |} in
  Config.validateStatus sample_client 500 = false /\
  request sample_client "/crawl/stream" Options.empty (Settles 20 (Resolves r))
    = Some (Returns (VResponse r)).
Proof.
  intros r. split; [reflexivity |].
  apply (event_stream_bypasses_status_check sample_client "/crawl/stream"
           Options.empty (Settles 20 (Resolves r)) r "text/event-stream");
    reflexivity.
Defined.

(** X7: the HTTP error a throwing client throws echoes the request: it
    carries the status of the response, the resolved URL, the method
    ([GET] when none is given), the body, and the merged headers that
    were sent. *)
Theorem http_error_echoes_request (this : Config.t) (endpoint : string)
    (options : Options.t) (net : Exchange) (r : Resp.t) (d : ResponseData) :
  fetch net (requestSignal this options) = Some (Resolves r) ->
  decoded_body r = Some d ->
  Config.validateStatus this (Resp.status r) = false ->
  Config.throwOnError this = true ->
  exists e : Err.t,
    request this endpoint options net = Some (Throws e) /\
    isCrawl4AIError e = true /\
    Err.status e = Some (Resp.status r) /\
    Err.request e =
      Some {| req_url := Config.baseUrl this +:+ endpoint;
              req_method := request_method options;
              req_headers := requestHeaders this options;
              req_body := Options.body options |}.
Proof.
  intros Hfetch Hbody Hstatus Hthrow.
  exists (http_error this endpoint options r d).
  split; [apply request_throws_http_error; assumption |].
  split; [| split].
  - unfold isCrawl4AIError, Err.instanceof. rewrite http_error_cls.
    apply createHttpError_classified.
  - rewrite http_error_status. apply createHttpError_status.
  - reflexivity.
Qed.

(** The same theorem at a 404 answered to the default client. *)
Lemma http_error_echoes_request_witness :
  exists e : Err.t,
    request sample_client "/crawl" Options.empty
      (Settles 20 (Resolves not_found_json_response)) = Some (Throws e) /\
    Err.status e = Some 404 /\
    req_url <$> Err.request e = Some "https://example.com/crawl" /\
    req_method <$> Err.request e = Some "GET".
Proof.
  destruct (http_error_echoes_request sample_client "/crawl" Options.empty
              (Settles 20 (Resolves not_found_json_response))
              not_found_json_response
              (DJson (JObj {[ "detail" := JStr "missing" ]})))
    as (e & Hreq & _ & Hstatus & Hecho).
  - reflexivity.
  - vm_compute. reflexivity.
  - reflexivity.
  - reflexivity.
  - exists e. split; [exact Hreq |]. split; [exact Hstatus |].
    rewrite Hecho. split; reflexivity.
Defined.

(** ** Retry coordinator, beyond the claims *)

Lemma retry_loop_trace (this : Config.t) (run : nat -> option Outcome) :
  forall (remaining attempt : nat) (lastError : Err.t) (tr : Trace),
    (attempt + remaining = S (Config.retries this))%nat ->
    attempts tr = attempt ->
    length (sleeps tr) = (attempt `min` Config.retries this)%nat ->
    let tr' := (retry_loop this run remaining attempt lastError tr).2 in
    (1 <= attempts tr' <= S (Config.retries this))%nat /\
    length (sleeps tr') = (attempts tr' - 1)%nat.
Proof.
  induction remaining as [| remaining IH];
    intros attempt lastError tr Hsum Hatt Hlen; cbn [retry_loop].
  - cbn [snd]. lia.
  - destruct (run attempt) as [[v | err] |];
      [cbn [snd attempted attempts sleeps]; lia |
       | cbn [snd attempted attempts sleeps]; lia].
    destruct (is_client_error err);
      [cbn [snd attempted attempts sleeps]; lia |].
    apply IH; [lia | |].
    + destruct (attempt <? Config.retries this)%nat;
        cbn [slept attempted attempts sleeps]; lia.
    + destruct (attempt <? Config.retries this)%nat eqn:Hlt;
        cbn [slept attempted attempts sleeps].
      * apply Nat.ltb_lt in Hlt. rewrite length_app. cbn [length]. lia.
      * apply Nat.ltb_ge in Hlt. lia.
Qed.

(** X8: whatever the network does, one logical call makes at least one
    and at most [retries + 1] attempts, and it sleeps exactly once
    between two consecutive attempts: the number of sleeps is the number
    of attempts minus one. *)
Theorem retry_trace_bounds (this : Config.t) (endpoint : string)
    (options : Options.t) (net : nat -> Exchange) :
  let tr := (requestWithRetry this endpoint options net).2 in
  (1 <= attempts tr <= S (Config.retries this))%nat /\
  length (sleeps tr) = (attempts tr - 1)%nat.
Proof.
  unfold requestWithRetry, retry_run.
  apply retry_loop_trace; cbn; lia.
Qed.

(** After [n] attempts that each threw a retryable error the loop stands
    at attempt [n] with [n] sleeps behind it. *)
Lemma retry_run_prefix (this : Config.t) (run : nat -> option Outcome)
    (e : nat -> Err.t) (n : nat) :
  (n <= Config.retries this)%nat ->
  (forall k, (k < n)%nat ->
     run k = Some (Throws (e k)) /\ is_client_error (e k) = false) ->
  exists lastError : Err.t,
    retry_run this run =
      retry_loop this run (S (Config.retries this) - n) n lastError
        {| attempts := n;
           sleeps := (fun a => retry_delay this a (e a)) <$> seq 0 n |}.
Proof.
  induction n as [| n IH]; intros Hn Hfail.
  - eexists. unfold retry_run. rewrite Nat.sub_0_r. reflexivity.
  - destruct IH as [lastError IH]; [lia | intros k Hk; apply Hfail; lia |].
    exists (e n). rewrite IH.
    replace (S (Config.retries this) - n)%nat
      with (S (S (Config.retries this) - S n)) by lia.
    cbn [retry_loop].
    destruct (Hfail n ltac:(lia)) as [Hrun Hretry]. rewrite Hrun, Hretry.
    assert (Hlt : (n <? Config.retries this)%nat = true)
      by (apply Nat.ltb_lt; lia).
    rewrite Hlt. f_equal.
    unfold slept, attempted. cbn [attempts sleeps].
    rewrite seq_S, fmap_app. reflexivity.
Qed.

Lemma retry_run_succeeds_after (this : Config.t)
    (run : nat -> option Outcome) (e : nat -> Err.t) (n : nat) (v : value) :
  (n <= Config.retries this)%nat ->
  (forall k, (k < n)%nat ->
     run k = Some (Throws (e k)) /\ is_client_error (e k) = false) ->
  run n = Some (Returns v) ->
  retry_run this run =
    (Some (Returns v),
     {| attempts := S n;
        sleeps := (fun a => retry_delay this a (e a)) <$> seq 0 n |}).
Proof.
  intros Hn Hfail Hok.
  destruct (retry_run_prefix this run e n Hn Hfail) as [lastError Hprefix].
  rewrite Hprefix.
  replace (S (Config.retries this) - n)%nat
    with (S (Config.retries this - n)) by lia.
  cbn [retry_loop]. rewrite Hok. reflexivity.
Qed.

(** X9: when the first [n] attempts throw retryable errors and attempt
    [n], still within the budget, succeeds, the call resolves to that
    value after [n + 1] attempts, having slept once after each failure. *)
Theorem success_after_transient_failures (this : Config.t)
    (endpoint : string) (options : Options.t) (net : nat -> Exchange)
    (e : nat -> Err.t) (n : nat) (v : value) :
  (n <= Config.retries this)%nat ->
  (forall k, (k < n)%nat ->
     request this endpoint options (net k) = Some (Throws (e k)) /\
     is_client_error (e k) = false) ->
  request this endpoint options (net n) = Some (Returns v) ->
  requestWithRetry this endpoint options net =
    (Some (Returns v),
     {| attempts := S n;
        sleeps := (fun a => retry_delay this a (e a)) <$> seq 0 n |}).
Proof.
  intros Hn Hfail Hok. unfold requestWithRetry.
  apply (retry_run_succeeds_after this _ e n v Hn Hfail Hok).
Qed.

(** The same theorem at a server that is rate limiting once and answers
    the second attempt. *)
Lemma success_after_transient_failures_witness :
  requestWithRetry sample_client "/crawl" Options.empty rate_limited_once =
    (Some (Returns (VData (DText "OK"))),
     {| attempts := 2; sleeps := [1000] |}).
Proof.
  rewrite (success_after_transient_failures sample_client "/crawl"
             Options.empty rate_limited_once
             (fun _ => http_error sample_client "/crawl" Options.empty
                         (text_response 429 "Too Many Requests"
                            {[ "retry-after" := "0" ]})
                         (DText "Too Many Requests"))
             1%nat (VData (DText "OK"))).
  - vm_compute. reflexivity.
  - unfold sample_client, defaults, DEFAULT_RETRIES. cbn. lia.
  - intros k Hk. assert (k = 0%nat) as -> by lia.
    split; vm_compute; reflexivity.
  - vm_compute. reflexivity.
Defined.

(** X10: a 429 whose [retry-after] header reads as a non-zero number [R]
    makes the coordinator sleep exactly [R * 1000] ms before the next
    attempt, whatever the base delay; when that attempt succeeds the call
    resolves after two attempts and this one sleep. *)
Theorem rate_limit_then_success (this : Config.t) (endpoint : string)
    (options : Options.t) (net : nat -> Exchange) (r : Resp.t)
    (d : ResponseData) (header : string) (R : Z) (v : value) :
  (1 <= Config.retries this)%nat ->
  Config.throwOnError this = true ->
  Config.validateStatus this 429 = false ->
  fetch (net 0%nat) (requestSignal this options) = Some (Resolves r) ->
  Resp.status r = 429 ->
  decoded_body r = Some d ->
  Resp.headers r !! "retry-after" = Some header ->
  Js.parseInt header = Num R ->
  R <> 0 ->
  request this endpoint options (net 1%nat) = Some (Returns v) ->
  requestWithRetry this endpoint options net =
    (Some (Returns v), {| attempts := 2; sleeps := [R * 1000] |}).
Proof.
  intros Hretries Hthrow Hvalid Hfetch Hstatus Hbody Hheader Hparse HR Hok.
  set (e := http_error this endpoint options r d).
  assert (Hne : header <> "").
  { intros ->. discriminate Hparse. }
  assert (Hcls : Err.cls e = C_RateLimitError).
  { unfold e. rewrite http_error_cls, Hstatus. reflexivity. }
  assert (Hafter : Err.retryAfter e = Some (Num R)).
  { unfold e, http_error, Err.retryAfter. cbn [Err.own Err.set_request].
    rewrite Hstatus.
    pose proof (createHttpError_retry_after (Resp.statusText r) header None
                  (Some d) (Resp.headers r) Hheader Hne) as Hc.
    unfold Err.retryAfter in Hc. rewrite Hc, Hparse. reflexivity. }
  unfold requestWithRetry.
  rewrite (retry_run_succeeds_after this
             (fun k => request this endpoint options (net k))
             (fun _ => e) 1%nat v Hretries).
  - cbn [seq fmap list_fmap].
    rewrite (retry_delay_retry_after this 0 e R Hcls Hafter HR). reflexivity.
  - intros k Hk. assert (k = 0%nat) as -> by lia. split.
    + apply request_throws_http_error; try assumption.
      rewrite Hstatus. exact Hvalid.
    + unfold is_client_error, e. rewrite http_error_status, Hstatus. cbn.
      apply andb_false_r.
  - exact Hok.
Qed.

(** The same theorem at a server that answers 429 with [retry-after: 30]
    and then 200. *)
Lemma rate_limit_then_success_witness :
  requestWithRetry sample_client "/crawl" Options.empty
    (fun attempt =>
       match attempt with
       | O => Settles 20 (Resolves (text_response 429 "Too Many Requests"
                                      {[ "retry-after" := "30" ]}))
       | S _ => Settles 20 (Resolves (text_response 200 "OK" ∅))
       end) =
    (Some (Returns (VData (DText "OK"))),
     {| attempts := 2; sleeps := [30000] |}).
Proof.
  apply (rate_limit_then_success sample_client "/crawl" Options.empty _
           (text_response 429 "Too Many Requests" {[ "retry-after" := "30" ]})
           (DText "Too Many Requests") "30" 30 (VData (DText "OK")));
    try (vm_compute; reflexivity).
  - unfold sample_client, defaults, DEFAULT_RETRIES. cbn. lia.
  - discriminate.
Defined.

Lemma retry_loop_exponential (this : Config.t) (run : nat -> option Outcome) :
  (forall k e, run k = Some (Throws e) -> Err.cls e <> C_RateLimitError) ->
  forall (remaining attempt : nat) (lastError : Err.t) (tr : Trace),
    (attempt + remaining = S (Config.retries this))%nat ->
    attempts tr = attempt ->
    sleeps tr = exponential_delay this
                  <$> seq 0 (attempt `min` Config.retries this) ->
    let tr' := (retry_loop this run remaining attempt lastError tr).2 in
    sleeps tr' = exponential_delay this <$> seq 0 (attempts tr' - 1).
Proof.
  intros Hplain.
  induction remaining as [| remaining IH];
    intros attempt lastError tr Hsum Hatt Hsl; cbn [retry_loop].
  - cbn [snd]. rewrite Hsl. f_equal. f_equal. lia.
  - assert (Hhere : sleeps (attempted tr) =
                    exponential_delay this <$> seq 0 (attempts (attempted tr) - 1)).
    { cbn [attempted attempts sleeps]. rewrite Hsl. f_equal. f_equal. lia. }
    destruct (run attempt) as [[v | err] |] eqn:Hrun;
      [exact Hhere | | exact Hhere].
    destruct (is_client_error err); [exact Hhere |].
    apply IH; [lia | |].
    + destruct (attempt <? Config.retries this)%nat;
        cbn [slept attempted attempts sleeps]; lia.
    + destruct (attempt <? Config.retries this)%nat eqn:Hlt;
        cbn [slept attempted attempts sleeps].
      * apply Nat.ltb_lt in Hlt.
        replace (S attempt `min` Config.retries this)%nat with (S attempt) by lia.
        rewrite seq_S, fmap_app, Hsl. cbn [fmap list_fmap Nat.add].
        replace (attempt `min` Config.retries this)%nat with attempt by lia.
        rewrite (retry_delay_exponential this attempt err (Hplain _ _ Hrun)).
        reflexivity.
      * apply Nat.ltb_ge in Hlt. rewrite Hsl. f_equal. f_equal. lia.
Qed.

Lemma foldr_add_snoc (l : list Z) (x : Z) :
  foldr Z.add 0 (l ++ [x]) = foldr Z.add 0 l + x.
Proof.
  induction l as [| y l IH]; cbn; [lia |]. rewrite IH. lia.
Qed.

(** The geometric sum of the exponential schedule. *)
Lemma exponential_delay_sum (this : Config.t) (n : nat) :
  foldr Z.add 0 (exponential_delay this <$> seq 0 n)
    = Config.retryDelay this * (2 ^ Z.of_nat n - 1).
Proof.
  induction n as [| n IH]; [cbn; lia |].
  rewrite seq_S, fmap_app.
  change (exponential_delay this <$> [(0 + n)%nat])
    with [exponential_delay this n].
  rewrite foldr_add_snoc, IH. unfold exponential_delay.
  rewrite Nat2Z.inj_succ, Z.pow_succ_r by lia. lia.
Qed.

(** X11: when no attempt throws a rate-limit error, the [k]-th sleep of a
    call lasts [retryDelay * 2^k] ms, so a call that made [n] attempts
    slept [retryDelay * (2^(n-1) - 1)] ms in all, and never more than
    [retryDelay * (2^retries - 1)] ms. *)
Theorem exponential_backoff_total (this : Config.t) (endpoint : string)
    (options : Options.t) (net : nat -> Exchange) :
  (forall k e, request this endpoint options (net k) = Some (Throws e) ->
     Err.cls e <> C_RateLimitError) ->
  let tr := (requestWithRetry this endpoint options net).2 in
  sleeps tr = exponential_delay this <$> seq 0 (attempts tr - 1) /\
  total_sleep tr =
    Config.retryDelay this * (2 ^ Z.of_nat (attempts tr - 1) - 1) /\
  (0 <= Config.retryDelay this ->
   total_sleep tr
     <= Config.retryDelay this * (2 ^ Z.of_nat (Config.retries this) - 1)).
Proof.
  intros Hplain tr.
  assert (Hsl : sleeps tr = exponential_delay this <$> seq 0 (attempts tr - 1)).
  { unfold tr, requestWithRetry, retry_run.
    apply (retry_loop_exponential this _ Hplain); cbn; (lia || reflexivity). }
  assert (Htotal : total_sleep tr =
            Config.retryDelay this * (2 ^ Z.of_nat (attempts tr - 1) - 1)).
  { unfold total_sleep. rewrite Hsl at 1. apply exponential_delay_sum. }
  split; [exact Hsl |]. split; [exact Htotal |].
  intros Hdelay. rewrite Htotal.
  assert (Hbound : (1 <= attempts tr <= S (Config.retries this))%nat).
  { unfold tr, requestWithRetry, retry_run.
    apply retry_loop_trace; cbn; lia. }
  apply Z.mul_le_mono_nonneg_l; [exact Hdelay |].
  apply Z.sub_le_mono_r.
  apply Z.pow_le_mono_r; lia.
Qed.

(** The same theorem at a server that always answers 500. *)
Lemma exponential_backoff_total_witness :
  total_sleep
    (requestWithRetry sample_client "/crawl" Options.empty
       (always (text_response 500 "Internal Server Error" ∅))).2
  = 1000 * (2 ^ 3 - 1).
Proof.
  destruct (exponential_backoff_total sample_client "/crawl" Options.empty
              (always (text_response 500 "Internal Server Error" ∅)))
    as (_ & Htotal & _).
  - intros k e He. vm_compute in He. inversion He. discriminate.
  - rewrite Htotal. vm_compute. reflexivity.
Defined.

Lemma request_times_out (this : Config.t) (endpoint : string)
    (options : Options.t) (net : Exchange) :
  Options.signal options = None ->
  deadline_first (request_timeout this options) net ->
  request this endpoint options net =
    Some (Throws (TimeoutError (request_timeout this options)
                    (Some (request_url this endpoint)))).
Proof.
  intros Hsignal Hdeadline.
  unfold request, requestSignal, controller_signal. rewrite Hsignal.
  destruct net as [| t s]; cbn [fetch aborts_at].
  - cbn [request_try]. rewrite request_catch_abort. reflexivity.
  - unfold deadline_first in Hdeadline.
    apply Z.leb_le in Hdeadline. rewrite Hdeadline.
    cbn [request_try]. rewrite request_catch_abort. reflexivity.
Qed.

(** X12: timeouts are retried.  Against a server that never answers
    within the deadline, a call without a signal of the caller runs all
    [retries + 1] attempts, sleeps the exponential schedule between them
    and throws the [TimeoutError] of the deadline in force. *)
Theorem silent_server_exhausts_retries (this : Config.t) (endpoint : string)
    (options : Options.t) (net : nat -> Exchange) :
  Options.signal options = None ->
  (forall k, (k <= Config.retries this)%nat ->
     deadline_first (request_timeout this options) (net k)) ->
  requestWithRetry this endpoint options net =
    (Some (Throws (TimeoutError (request_timeout this options)
                     (Some (request_url this endpoint)))),
     {| attempts := S (Config.retries this);
        sleeps := exponential_delay this <$> seq 0 (Config.retries this) |}).
Proof.
  intros Hsignal Hsilent. unfold requestWithRetry.
  rewrite (retry_run_all_fail this _
             (fun _ => TimeoutError (request_timeout this options)
                         (Some (request_url this endpoint)))).
  - f_equal. f_equal. unfold backoff_schedule. rewrite Nat.sub_0_r.
    apply list_fmap_ext. intros i a _.
    apply retry_delay_exponential. discriminate.
  - intros k Hk. split; [| reflexivity].
    apply request_times_out; [exact Hsignal | apply Hsilent, Hk].
Qed.

(** The same theorem at the default client with a deadline of 1 ms and a
    network that stays silent. *)
Lemma silent_server_exhausts_retries_witness :
  requestWithRetry sample_client "/crawl" one_ms_deadline (fun _ => Never) =
    (Some (Throws (TimeoutError 1 (Some "https://example.com/crawl"))),
     {| attempts := 4; sleeps := [1000; 2000; 4000] |}).
Proof.
  rewrite (silent_server_exhausts_retries sample_client "/crawl"
             one_ms_deadline (fun _ => Never)).
  - reflexivity.
  - reflexivity.
  - intros k _. exact I.
Defined.

(** ** Response normalizer, beyond the claim *)

(** X13: the normalizer always answers with an array, and normalizing
    what it answered changes nothing. *)
Theorem normalizeArrayResponse_idempotent (v : json) :
  Js.isArray (normalizeArrayResponse v) = true /\
  normalizeArrayResponse (normalizeArrayResponse v) = normalizeArrayResponse v.
Proof.
  assert (Harr : Js.isArray (normalizeArrayResponse v) = true).
  { unfold normalizeArrayResponse.
    destruct (Js.isArray v) eqn:Hv; [exact Hv |].
    destruct (isApiArrayResponse v); [| reflexivity].
    destruct (Js.get "results" v) as [res |]; cbn.
    - destruct (Js.truthy res && Js.isArray res) eqn:Hres.
      + apply andb_prop in Hres as [_ H]. exact H.
      + destruct (Js.get "result" v) as [r |]; cbn; [| reflexivity].
        destruct (Js.truthy r && Js.isArray r) eqn:Hr; [| reflexivity].
        apply andb_prop in Hr as [_ H]. exact H.
    - destruct (Js.get "result" v) as [r |]; cbn; [| reflexivity].
      destruct (Js.truthy r && Js.isArray r) eqn:Hr; [| reflexivity].
      apply andb_prop in Hr as [_ H]. exact H. }
  split; [exact Harr |].
  unfold normalizeArrayResponse at 1. rewrite Harr. reflexivity.
Qed.

(** ** Setters and construction *)

Lemma strip_trailing_slash_cons (c : ascii) (s : string) :
  s <> "" ->
  strip_trailing_slash (String c s) = String c (strip_trailing_slash s).
Proof. destruct s; [congruence | reflexivity]. Qed.

Lemma strip_trailing_slash_app (b : string) :
  strip_trailing_slash (b +:+ "/") = b.
Proof.
  induction b as [| c b IH]; [reflexivity |].
  change (String c b +:+ "/") with (String c (b +:+ "/")).
  rewrite strip_trailing_slash_cons, IH; [reflexivity |].
  destruct b; discriminate.
Qed.

Lemma strip_trailing_slash_other (s : string) :
  (forall b, s <> b +:+ "/") -> strip_trailing_slash s = s.
Proof.
  induction s as [| c s IH]; [reflexivity |].
  intros Hends. cbn [strip_trailing_slash].
  destruct s as [| d rest].
  - destruct (Ascii.eqb_spec c "/") as [-> | Hc]; [| reflexivity].
    exfalso. apply (Hends ""). reflexivity.
  - fold (strip_trailing_slash (String d rest)).
    rewrite IH; [reflexivity |].
    intros b Hb. apply (Hends (String c b)). cbn. rewrite Hb. reflexivity.
Qed.

(** X14: [setBaseUrl] removes exactly one trailing slash and nothing
    else, so an endpoint path is appended to the address as given: a
    base address [b/] and a base address [b] resolve [endpoint] to the
    same URL, and an address that ends in two slashes keeps one. *)
Theorem setBaseUrl_strips_one_slash (this : Config.t) (endpoint : string) :
  (forall b : string,
     Config.baseUrl (setBaseUrl (b +:+ "/") this) = b /\
     request_url (setBaseUrl (b +:+ "/") this) endpoint = b +:+ endpoint) /\
  (forall s : string,
     (forall b, s <> b +:+ "/") ->
     Config.baseUrl (setBaseUrl s this) = s /\
     request_url (setBaseUrl s this) endpoint = s +:+ endpoint).
Proof.
  split.
  - intros b. unfold request_url, setBaseUrl. cbn [Config.baseUrl].
    rewrite strip_trailing_slash_app. split; reflexivity.
  - intros s Hs. unfold request_url, setBaseUrl. cbn [Config.baseUrl].
    rewrite (strip_trailing_slash_other s Hs). split; reflexivity.
Qed.

(** The same theorem at an address with one and with two trailing slashes
    and at one without. *)
Lemma setBaseUrl_strips_one_slash_witness :
  request_url (setBaseUrl "http://localhost:11235/" sample_client) "/crawl"
    = "http://localhost:11235/crawl" /\
  Config.baseUrl (setBaseUrl "http://localhost:11235//" sample_client)
    = "http://localhost:11235/" /\
  Config.baseUrl (setBaseUrl "http://localhost:11235" sample_client)
    = "http://localhost:11235".
Proof.
  destruct (setBaseUrl_strips_one_slash sample_client "/crawl")
    as [Hslash Hplain].
  split; [| split].
  - apply (Hslash "http://localhost:11235").
  - apply (Hslash "http://localhost:11235/").
  - apply (Hplain "http://localhost:11235").
    intros b Hb.
    do 22 (destruct b as [| ? b]; cbn in Hb;
           [discriminate Hb | injection Hb as _ Hb]).
    destruct b; discriminate Hb.
Defined.

Lemma requestHeaders_lookup (this : Config.t) (options : Options.t)
    (k : string) :
  requestHeaders this options !! k =
    match Options.headers options ≫= (fun h => h !! k) with
    | Some v => Some v
    | None => Config.defaultHeaders this !! k
    end.
Proof.
  unfold requestHeaders. rewrite lookup_union.
  destruct (Options.headers options) as [h |]; cbn.
  - destruct (h !! k), (Config.defaultHeaders this !! k); reflexivity.
  - rewrite lookup_empty.
    destruct (Config.defaultHeaders this !! k); reflexivity.
Qed.

(** X15: after [setApiToken(token)] with a non-empty token every request
    is sent with [Authorization: Bearer token] unless the call supplies
    its own [Authorization] header; after [setApiToken('')] it is sent
    with the caller's [Authorization] header or with none.  No other
    header changes. *)
Theorem setApiToken_sets_authorization (this : Config.t) (options : Options.t)
    (token : string) :
  (token <> "" ->
   requestHeaders (setApiToken token this) options !! "Authorization" =
     match Options.headers options ≫= (fun h => h !! "Authorization") with
     | Some mine => Some mine
     | None => Some ("Bearer " +:+ token)
     end) /\
  requestHeaders (setApiToken "" this) options !! "Authorization" =
    Options.headers options ≫= (fun h => h !! "Authorization") /\
  (forall k : string, k <> "Authorization" ->
     requestHeaders (setApiToken token this) options !! k =
       requestHeaders this options !! k).
Proof.
  split; [| split].
  - intros Htoken. rewrite requestHeaders_lookup.
    unfold setApiToken. cbn [Config.defaultHeaders].
    destruct token; [congruence |]. cbn [Js.truthy_str].
    rewrite lookup_insert_eq. reflexivity.
  - rewrite requestHeaders_lookup.
    unfold setApiToken. cbn [Config.defaultHeaders Js.truthy_str].
    rewrite lookup_delete_eq.
    destruct (Options.headers options ≫= (fun h => h !! "Authorization"));
      reflexivity.
  - intros k Hk. rewrite !requestHeaders_lookup.
    unfold setApiToken. cbn [Config.defaultHeaders].
    destruct (Js.truthy_str token).
    + rewrite lookup_insert_ne by congruence. reflexivity.
    + rewrite lookup_delete_ne by congruence. reflexivity.
Qed.

(** The same theorem at a token set on the default client. *)
Lemma setApiToken_sets_authorization_witness :
  requestHeaders (setApiToken "s3cret" sample_client) Options.empty
    !! "Authorization" = Some "Bearer s3cret" /\
  requestHeaders (setApiToken "" (setApiToken "s3cret" sample_client))
    Options.empty !! "Authorization" = None.
Proof.
  split.
  - apply (proj1 (setApiToken_sets_authorization sample_client Options.empty
                    "s3cret")).
    discriminate.
  - apply (proj1 (proj2 (setApiToken_sets_authorization
                           (setApiToken "s3cret" sample_client)
                           Options.empty ""))).
Defined.

Lemma validation_error_shape (message : string) (field : option string)
    (value : option json) :
  kind_of (RequestValidationError message field value) = Some Validation /\
  Err.status (RequestValidationError message field value) = Some 400.
Proof. split; reflexivity. Qed.



(** X17: a client constructed with a non-empty token has the default
    header [Authorization: Bearer token], also when the configuration
    brought its own [Authorization] default; its [Content-Type] default
    is the configured one, [application/json] when none is configured. *)
Theorem constructed_client_headers (URL_parses : string -> bool)
    (config : Crawl4AIConfig.t) (this : Config.t) :
  createCrawl4AI URL_parses config = Normal this ->
  (forall token, Crawl4AIConfig.apiToken config = Some token -> token <> "" ->
     Config.defaultHeaders this !! "Authorization" = Some ("Bearer " +:+ token)) /\
  Config.defaultHeaders this !! "Content-Type" =
    Some (default "application/json"
            (Crawl4AIConfig.defaultHeaders config
               ≫= (fun h => h !! "Content-Type"))).
Proof.
  intros Hbuilt.
  assert (Hthis : this = merged_config config).
  { unfold createCrawl4AI in Hbuilt.
    repeat match type of Hbuilt with
           | (if ?b then _ else _) = _ => destruct b; [discriminate Hbuilt |]
           | match ?o with Some _ => _ | None => _ end = _ =>
               destruct o; [discriminate Hbuilt |]
           end.
    inversion Hbuilt. reflexivity. }
  subst this. unfold merged_config. cbn [Config.defaultHeaders].
  split.
  - intros token Htoken Hne. rewrite Htoken. cbn [from_option id].
    destruct token; [congruence |]. cbn [Js.truthy_str].
    apply lookup_insert_eq.
  - assert (Hmerged :
      (default ∅ (Crawl4AIConfig.defaultHeaders config)
         ∪ {[ "Content-Type" := "application/json" ]}) !! "Content-Type" =
      Some (default "application/json"
              (Crawl4AIConfig.defaultHeaders config
                 ≫= (fun h => h !! "Content-Type")))).
    { rewrite lookup_union, lookup_singleton_eq.
      destruct (Crawl4AIConfig.defaultHeaders config) as [h |]; cbn.
      - destruct (h !! "Content-Type"); reflexivity.
      - rewrite lookup_empty. reflexivity. }
    destruct (Js.truthy_str (default "" (Crawl4AIConfig.apiToken config)));
      [rewrite lookup_insert_ne by discriminate |]; exact Hmerged.
Qed.

(** The same theorem at a configuration with a token and an
    [Authorization] default of its own. *)
Lemma constructed_client_headers_witness :
  let config :=
    {| Crawl4AIConfig.baseUrl := "http://localhost:11235";
       Crawl4AIConfig.apiToken := Some "s3cret";
       Crawl4AIConfig.timeout := None;
       Crawl4AIConfig.retries := None;
       Crawl4AIConfig.retryDelay := None;
       Crawl4AIConfig.defaultHeaders := Some {[ "Authorization" := "Basic abc" ]};
       Crawl4AIConfig.throwOnError := None;
       Crawl4AIConfig.validateStatus := None;
       Crawl4AIConfig.debug := None |} in
  Config.defaultHeaders (merged_config config) !! "Authorization"
    = Some "Bearer s3cret".
Proof.
  intros config.
  apply (proj1 (constructed_client_headers (String.prefix "http") config
                  (merged_config config) eq_refl) "s3cret").
  - reflexivity.
  - discriminate.
Defined.

(** ** Plain endpoints *)




(** X19: on a client configured not to throw, [testConnection] answers
    [true] for every response whose body decodes, whatever its status:
    an HTTP 500 counts as connected. *)
Theorem testConnection_ignores_status (this : Config.t) (net : Exchange)
    (r : Resp.t) (d : ResponseData) (throwOnError : bool) :
  Config.throwOnError this = false ->
  fetch net (controller_signal HEALTH_CHECK_TIMEOUT) = Some (Resolves r) ->
  decoded_body r = Some d ->
  testConnection this throwOnError net = Some (Normal true).
Proof.
  intros Hquiet Hfetch Hbody. unfold testConnection, health, request.
  change (requestSignal this _) with (controller_signal HEALTH_CHECK_TIMEOUT).
  rewrite Hfetch, (request_try_decoded _ _ _ _ _ Hbody).
  unfold check_status. rewrite Hquiet.
  destruct (Config.validateStatus this (Resp.status r)); reflexivity.
Qed.

(** The same theorem at a server that answers the health check with a
    500. *)
Lemma testConnection_ignores_status_witness :
  testConnection quiet_client false
    (Settles 20 (Resolves (text_response 500 "Internal Server Error" ∅)))
  = Some (Normal true) /\
  testConnection sample_client false
    (Settles 20 (Resolves (text_response 500 "Internal Server Error" ∅)))
  = Some (Normal false).
Proof.
  split.
  - apply (testConnection_ignores_status quiet_client _
             (text_response 500 "Internal Server Error" ∅)
             (DText "Internal Server Error") false);
      reflexivity.
  - vm_compute. reflexivity.
Defined.




(** ** Crawling endpoints *)

Lemma validate_urls_first_invalid (URL_parses : string -> bool)
    (good : list string) (bad : string) (rest : list string) :
  forallb URL_parses good = true ->
  URL_parses bad = false ->
  validate_urls URL_parses (good ++ bad :: rest) =
    Some (RequestValidationError ("Invalid URL: " +:+ bad)
            (Some "url") (Some (JStr bad))).
Proof.
  intros Hgood Hbad.
  induction good as [| u good IH]; cbn [app validate_urls].
  - unfold validateUrl. rewrite Hbad. reflexivity.
  - cbn in Hgood. apply andb_prop in Hgood as [Hu Hgood].
    unfold validateUrl at 1. rewrite Hu. apply IH, Hgood.
Qed.

(** X21: a URL that does not parse stops [crawl], [markdown], [html] and
    [executeJs] before any request is made: they throw the validation
    error (status 400, field [url]) of the first such URL with no attempt
    and no sleep, whatever the network would have answered. *)
Theorem invalid_url_stops_before_network (URL_parses : string -> bool)
    (JSON_stringify : json -> string) (this : Config.t)
    (config : option RequestConfig.t) (net : nat -> Exchange) :
  let invalid (url : string) :=
    RequestValidationError ("Invalid URL: " +:+ url) (Some "url")
      (Some (JStr url)) in
  let untouched := {| attempts := 0; sleeps := [] |} in
  (forall good bad rest fields,
     forallb URL_parses good = true -> URL_parses bad = false ->
     crawl URL_parses JSON_stringify this
       {| crawl_urls := ManyUrls (good ++ bad :: rest); crawl_fields := fields |}
       config net = (Some (Abrupt (invalid bad)), untouched)) /\
  (forall bad fields,
     URL_parses bad = false ->
     crawl URL_parses JSON_stringify this
       {| crawl_urls := OneUrl bad; crawl_fields := fields |}
       config net = (Some (Abrupt (invalid bad)), untouched)) /\
  (forall request : PageRequest,
     URL_parses (page_url request) = false ->
     markdown URL_parses JSON_stringify this request config net
       = (Some (Abrupt (invalid (page_url request))), untouched) /\
     html URL_parses JSON_stringify this request config net
       = (Some (Abrupt (invalid (page_url request))), untouched) /\
     executeJs URL_parses JSON_stringify this request config net
       = (Some (Throws (invalid (page_url request))), untouched)).
Proof.
  intros invalid untouched. split; [| split].
  - intros good bad rest fields Hgood Hbad. unfold crawl.
    cbn [crawl_urls url_array].
    rewrite (validate_urls_first_invalid URL_parses good bad rest Hgood Hbad).
    reflexivity.
  - intros bad fields Hbad. unfold crawl. cbn [crawl_urls url_array].
    pose proof (validate_urls_first_invalid URL_parses [] bad [] eq_refl Hbad)
      as Hfirst.
    cbn [app] in Hfirst. rewrite Hfirst. reflexivity.
  - intros request Hbad.
    unfold markdown, html, page_text, executeJs, validateUrl.
    rewrite Hbad. repeat split.
Qed.

(** The same theorem at a crawl of two pages, the second of which is
    no URL. *)
Lemma invalid_url_stops_before_network_witness :
  crawl (String.prefix "http") (fun _ => "{}") sample_client
    {| crawl_urls := ManyUrls ["https://example.com"; "not-a-url"];
       crawl_fields := ∅ |}
    None (always (text_response 200 "OK" ∅))
  = (Some (Abrupt (RequestValidationError "Invalid URL: not-a-url"
                     (Some "url") (Some (JStr "not-a-url")))),
     {| attempts := 0; sleeps := [] |}).
Proof.
  apply (proj1 (invalid_url_stops_before_network (String.prefix "http")
                  (fun _ => "{}") sample_client None
                  (always (text_response 200 "OK" ∅)))
           ["https://example.com"] "not-a-url" [] ∅);
    reflexivity.
Defined.

Lemma request_returns_data_or_response (this : Config.t) (endpoint : string)
    (options : Options.t) (net : Exchange) (v : value) :
  request this endpoint options net = Some (Returns v) ->
  (exists d, v = VData d) \/ (exists r, v = VResponse r).
Proof.
  unfold request.
  destruct (fetch net (requestSignal this options)) as [[r | e] |];
    [| | discriminate].
  - unfold request_try, check_status.
    repeat match goal with
           | |- context [if ?b then _ else _] => destruct b
           | |- context [match Resp.parsed r with _ => _ end] =>
               destruct (Resp.parsed r)
           end;
      cbn [request_catch];
      repeat match goal with
             | |- context [if ?b then _ else _] => destruct b
             end;
      intros H; inversion H; subst; eauto.
  - cbn [request_try request_catch].
    repeat match goal with
           | |- context [if ?b then _ else _] => destruct b
           end;
      intros H; discriminate H.
Qed.

Lemma retry_loop_returns (this : Config.t) (run : nat -> option Outcome)
    (v : value) :
  forall (remaining attempt : nat) (lastError : Err.t) (tr : Trace),
    (retry_loop this run remaining attempt lastError tr).1 = Some (Returns v) ->
    exists k, run k = Some (Returns v).
Proof.
  induction remaining as [| remaining IH]; intros attempt lastError tr;
    cbn [retry_loop].
  - cbn. discriminate.
  - destruct (run attempt) as [[w | err] |] eqn:Hrun; cbn [fst].
    + intros H. inversion H; subst. eauto.
    + destruct (is_client_error err); [cbn; discriminate |]. apply IH.
    + discriminate.
Qed.

(** X22: whenever [crawl] resolves, it resolves to an array: the
    normalized array of the decoded answer, or the one-element array
    around the raw response of an event stream; and it resolves only
    after at least one attempt. *)
Theorem crawl_resolves_to_array (URL_parses : string -> bool)
    (JSON_stringify : json -> string) (this : Config.t)
    (req : CrawlRequest) (config : option RequestConfig.t)
    (net : nat -> Exchange) (results : CrawlResults) (tr : Trace) :
  crawl URL_parses JSON_stringify this req config net
    = (Some (Normal results), tr) ->
  (1 <= attempts tr)%nat /\
  match results with
  | Results array => Js.isArray array = true
  | Wrapped v => exists r, v = VResponse r
  end.
Proof.
  unfold crawl.
  destruct (validate_urls URL_parses (url_array (crawl_urls req)));
    [discriminate |].
  set (options := spread_config "POST"
                    (Some (JSON_stringify (normalizedRequest req))) config).
  destruct (requestWithRetry this "/crawl" options net) as [o tr'] eqn:Hrun.
  destruct o as [[response | e] |]; intros H; inversion H; subst.
  split.
  - pose proof (retry_loop_trace this
                  (fun k => request this "/crawl" options (net k))
                  (S (Config.retries this)) 0
                  (BuiltinError C_Error "Error" "No attempts made")
                  {| attempts := 0; sleeps := [] |}
                  ltac:(lia) eq_refl eq_refl) as [Hb _].
    unfold requestWithRetry, retry_run in Hrun. rewrite Hrun in Hb.
    cbn [snd] in Hb. lia.
  - assert (Hfrom : exists k,
              request this "/crawl" options (net k) = Some (Returns response)).
    { apply (retry_loop_returns this _ response (S (Config.retries this)) 0
               (BuiltinError C_Error "Error" "No attempts made")
               {| attempts := 0; sleeps := [] |}).
      unfold requestWithRetry, retry_run in Hrun. rewrite Hrun. reflexivity. }
    destruct Hfrom as [k Hk].
    apply request_returns_data_or_response in Hk as [[d ->] | [r ->]].
    + destruct d as [j | text]; cbn [normalize_value].
      * unfold normalizeArrayResponse.
        destruct (Js.isArray j) eqn:Hj; [exact Hj |].
        destruct (isApiArrayResponse j); [| reflexivity].
        destruct (Js.get "results" j) as [res |]; cbn.
        -- destruct (Js.truthy res && Js.isArray res) eqn:Hres.
           ++ apply andb_prop in Hres as [_ Ha]. exact Ha.
           ++ destruct (Js.get "result" j) as [r |]; cbn; [| reflexivity].
              destruct (Js.truthy r && Js.isArray r) eqn:Hr; [| reflexivity].
              apply andb_prop in Hr as [_ Ha]. exact Ha.
        -- destruct (Js.get "result" j) as [r |]; cbn; [| reflexivity].
           destruct (Js.truthy r && Js.isArray r) eqn:Hr; [| reflexivity].
           apply andb_prop in Hr as [_ Ha]. exact Ha.
      * reflexivity.
    + cbn [normalize_value]. eauto.
Qed.

(** The same theorem at a crawl answered with an envelope. *)
Lemma crawl_resolves_to_array_witness :
  crawl (String.prefix "http") (fun _ => "{}") sample_client
    {| crawl_urls := OneUrl "https://example.com"; crawl_fields := ∅ |}
    None
    (always {| Resp.status := 200; Resp.statusText := "OK";
               Resp.headers := {[ "content-type" := "application/json" ]};
               Resp.text := "";
               Resp.parsed :=
                 Some (JObj {[ "results" := JArr [JStr "page"] ]}) |})
  = (Some (Normal (Results (JArr [JStr "page"]))),
     {| attempts := 1; sleeps := [] |}) /\
  Js.isArray (JArr [JStr "page"]) = true.
Proof.
  assert (Hrun :
    crawl (String.prefix "http") (fun _ => "{}") sample_client
      {| crawl_urls := OneUrl "https://example.com"; crawl_fields := ∅ |}
      None
      (always {| Resp.status := 200; Resp.statusText := "OK";
                 Resp.headers := {[ "content-type" := "application/json" ]};
                 Resp.text := "";
                 Resp.parsed :=
                   Some (JObj {[ "results" := JArr [JStr "page"] ]}) |})
    = (Some (Normal (Results (JArr [JStr "page"]))),
       {| attempts := 1; sleeps := [] |}))
    by (vm_compute; reflexivity).
  split; [exact Hrun |].
  exact (proj2 (crawl_resolves_to_array _ _ _ _ _ _ _ _ Hrun)).
Defined.

Lemma retry_run_first_return (this : Config.t) (run : nat -> option Outcome)
    (v : value) :
  run 0%nat = Some (Returns v) ->
  retry_run this run = (Some (Returns v), {| attempts := 1; sleeps := [] |}).
Proof.
  intros Hrun. unfold retry_run. cbn [retry_loop]. rewrite Hrun. reflexivity.
Qed.

(** X23: [markdown] and [html] hand a text answer back as it is and read
    the [markdown], respectively [html], property of a decoded object;
    an object without that property makes them resolve to [undefined],
    and an answer [null] makes them throw the [TypeError] of the
    property read although the request succeeded. *)
Theorem page_text_reads_answer (URL_parses : string -> bool)
    (JSON_stringify : json -> string) (this : Config.t)
    (req : PageRequest) (config : option RequestConfig.t)
    (net : nat -> Exchange) (answer : value) :
  URL_parses (page_url req) = true ->
  request this "/md"
    (spread_config "POST" (Some (JSON_stringify (page_object req))) config)
    (net 0%nat) = Some (Returns answer) ->
  request this "/html"
    (spread_config "POST" (Some (JSON_stringify (page_object req))) config)
    (net 0%nat) = Some (Returns answer) ->
  let md := (markdown URL_parses JSON_stringify this req config net).1 in
  let page := (html URL_parses JSON_stringify this req config net).1 in
  (forall text, answer = VData (DText text) ->
     md = Some (Normal (Some (JStr text))) /\
     page = Some (Normal (Some (JStr text)))) /\
  (forall props, answer = VData (DJson (JObj props)) ->
     md = Some (Normal (props !! "markdown")) /\
     page = Some (Normal (props !! "html"))) /\
  (answer = VData (DJson JNull) ->
     md = Some (Abrupt (NullReadError "markdown")) /\
     page = Some (Abrupt (NullReadError "html"))).
Proof.
  intros Hurl Hmd Hhtml md page.
  unfold md, page, markdown, html, page_text, validateUrl. rewrite Hurl.
  unfold requestWithRetry.
  rewrite (retry_run_first_return this _ answer Hmd).
  rewrite (retry_run_first_return this _ answer Hhtml).
  cbn [fst].
  split; [| split].
  - intros text ->. split; reflexivity.
  - intros props ->. split; reflexivity.
  - intros ->. split; reflexivity.
Qed.

(** The same theorem at a server that answers with an object that holds
    the markdown only. *)
Lemma page_text_reads_answer_witness :
  let server :=
    always {| Resp.status := 200; Resp.statusText := "OK";
              Resp.headers := {[ "content-type" := "application/json" ]};
              Resp.text := "";
              Resp.parsed := Some (JObj {[ "markdown" := JStr "# Title" ]}) |} in
  let req := {| page_url := "https://example.com"; page_fields := ∅ |} in
  (markdown (String.prefix "http") (fun _ => "{}") sample_client req None
     server).1 = Some (Normal (Some (JStr "# Title"))) /\
  (html (String.prefix "http") (fun _ => "{}") sample_client req None
     server).1 = Some (Normal None).
Proof.
  intros server req.
  destruct (page_text_reads_answer (String.prefix "http") (fun _ => "{}")
              sample_client req None server
              (VData (DJson (JObj {[ "markdown" := JStr "# Title" ]}))))
    as (_ & Hobject & _).
  - reflexivity.
  - vm_compute. reflexivity.
  - vm_compute. reflexivity.
  - destruct (Hobject {[ "markdown" := JStr "# Title" ]} eq_refl)
      as [Hmd Hhtml].
    rewrite Hmd, Hhtml. split; vm_compute; reflexivity.
Defined.

(** X24: a body announced as JSON that does not parse makes [request]
    throw the [SyntaxError] of the decoder, an error outside the
    taxonomy, whatever the status of the response and also on a client
    configured not to throw. *)
Theorem malformed_json_throws (this : Config.t) (endpoint : string)
    (options : Options.t) (net : Exchange) (r : Resp.t) (contentType : string) :
  fetch net (requestSignal this options) = Some (Resolves r) ->
  Resp.headers r !! "content-type" = Some contentType ->
  Js.includes contentType "application/json" = true ->
  Resp.parsed r = None ->
  request this endpoint options net = Some (Throws JsonSyntaxError) /\
  kind_of JsonSyntaxError = None /\
  isCrawl4AIError JsonSyntaxError = false.
Proof.
  intros Hfetch Hct Hjson Hparsed.
  split; [| split; reflexivity].
  unfold request. rewrite Hfetch. unfold request_try, truthy_header.
  rewrite Hct.
  assert (Htruthy : Js.truthy_str contentType = true).
  { destruct contentType; [discriminate Hjson | reflexivity]. }
  rewrite Htruthy. cbn [from_option id]. rewrite Hjson, Hparsed.
  reflexivity.
Qed.

(** The same theorem at the client that does not throw on HTTP errors. *)
Lemma malformed_json_throws_witness :
  Config.throwOnError quiet_client = false /\
  request quiet_client "/crawl" Options.empty
    (Settles 20 (Resolves malformed_json_response))
  = Some (Throws JsonSyntaxError).
Proof.
  split; [reflexivity |].
  apply (malformed_json_throws quiet_client "/crawl" Options.empty
           (Settles 20 (Resolves malformed_json_response))
           malformed_json_response "application/json");
    reflexivity.
Defined.

(** ** Query strings, [ask] and [llm] *)

Lemma string_forall_app (P : ascii -> bool) (s t : string) :
  string_forall P (s +:+ t) = string_forall P s && string_forall P t.
Proof.
  induction s as [| c s IH]; [reflexivity |].
  change (String c s +:+ t) with (String c (s +:+ t)).
  cbn [string_forall]. rewrite IH, andb_assoc. reflexivity.
Qed.

Lemma string_forall_weaken (P Q : ascii -> bool) (s : string) :
  (forall c, P c = true -> Q c = true) ->
  string_forall P s = true -> string_forall Q s = true.
Proof.
  intros HPQ. induction s as [| c s IH]; [reflexivity |].
  cbn. intros H. apply andb_prop in H as [Hc Hs].
  rewrite (HPQ c Hc), (IH Hs). reflexivity.
Qed.

Lemma percent_encode_safe (c : ascii) :
  string_forall uri_safe (percent_encode c) = true.
Proof.
  destruct c as [[] [] [] [] [] [] [] []]; vm_compute; reflexivity.
Qed.

Lemma encodeURIComponent_safe (s : string) :
  string_forall uri_safe (encodeURIComponent s) = true.
Proof.
  induction s as [| c s IH]; [reflexivity |].
  cbn [encodeURIComponent]. rewrite string_forall_app, IH, andb_true_r.
  destruct (uri_unreserved c) eqn:Hc.
  - cbn. unfold uri_safe. rewrite Hc. reflexivity.
  - apply percent_encode_safe.
Qed.

Lemma form_unreserved_uri_unreserved (c : ascii) :
  form_unreserved c = true -> uri_unreserved c = true.
Proof.
  destruct c as [[] [] [] [] [] [] [] []]; vm_compute; intros H;
    (reflexivity || discriminate H).
Qed.

Lemma form_encode_safe (s : string) :
  string_forall (fun c => uri_safe c || Ascii.eqb c "+") (form_encode s) = true.
Proof.
  induction s as [| c s IH]; [reflexivity |].
  cbn [form_encode]. rewrite string_forall_app, IH, andb_true_r.
  destruct (Ascii.eqb c " "); [reflexivity |].
  destruct (form_unreserved c) eqn:Hc.
  - cbn. unfold uri_safe.
    rewrite (form_unreserved_uri_unreserved c Hc). reflexivity.
  - apply (string_forall_weaken uri_safe); [| apply percent_encode_safe].
    intros d Hd. rewrite Hd. reflexivity.
Qed.

Lemma form_encode_query_safe (s : string) :
  string_forall query_safe (form_encode s) = true.
Proof.
  apply (string_forall_weaken (fun c => uri_safe c || Ascii.eqb c "+"));
    [| apply form_encode_safe].
  intros c Hc. unfold query_safe.
  apply orb_prop in Hc as [Hc | Hc]; [rewrite Hc; reflexivity |].
  apply Ascii.eqb_eq in Hc. subst. reflexivity.
Qed.

Lemma searchParams_toString_safe (pairs : list (string * string)) :
  string_forall query_safe (searchParams_toString pairs) = true.
Proof.
  induction pairs as [| [k v] pairs IH]; [reflexivity |].
  destruct pairs as [| p pairs].
  - cbn [searchParams_toString].
    rewrite !string_forall_app, !form_encode_query_safe. reflexivity.
  - change (searchParams_toString ((k, v) :: p :: pairs))
      with (form_encode k +:+ "=" +:+ form_encode v +:+ "&"
              +:+ searchParams_toString (p :: pairs)).
    rewrite !string_forall_app, !form_encode_query_safe, IH. reflexivity.
Qed.

(** Characters with a meaning in a URL that an encoded component never
    holds. *)
Lemma uri_safe_not_delimiter (c : ascii) :
  uri_safe c = true -> char_in c "/?#&=+ " = false.
Proof.
  destruct c as [[] [] [] [] [] [] [] []]; vm_compute; intros H;
    (reflexivity || discriminate H).
Qed.

Lemma query_safe_not_delimiter (c : ascii) :
  query_safe c = true -> char_in c "/?# " = false.
Proof.
  destruct c as [[] [] [] [] [] [] [] []]; vm_compute; intros H;
    (reflexivity || discriminate H).
Qed.

(** X25: the endpoint [llm] requests is [/llm/], the encoded URL, [?q=]
    and the encoded query, and neither encoded part holds a slash, a
    question mark, a hash or a space; the encoded URL holds no [&], [=]
    or [+] either.  So the page URL stays one path segment and the query
    one parameter, whatever characters they contain. *)
Theorem llm_endpoint_is_well_formed (url query : string) :
  llm_endpoint url query =
    "/llm/" +:+ encodeURIComponent url +:+ "?q=" +:+ form_encode query /\
  string_forall (fun c => negb (char_in c "/?#&=+ "))
    (encodeURIComponent url) = true /\
  string_forall (fun c => negb (char_in c "/?# ")) (form_encode query) = true.
Proof.
  split; [reflexivity |]. split.
  - apply (string_forall_weaken uri_safe); [| apply encodeURIComponent_safe].
    intros c Hc. rewrite (uri_safe_not_delimiter c Hc). reflexivity.
  - apply (string_forall_weaken query_safe); [| apply form_encode_query_safe].
    intros c Hc. rewrite (query_safe_not_delimiter c Hc). reflexivity.
Qed.

Lemma defined_entries_skip (before after : list (string * option json))
    (key : string) :
  defined_entries (before ++ (key, None) :: after)
    = defined_entries (before ++ after).
Proof.
  induction before as [| [k [v |]] before IH]; cbn; [reflexivity | |];
    rewrite ?IH; reflexivity.
Qed.

(** X26: [buildQueryParams] leaves out every parameter that is
    [undefined], so [ask] without parameters requests [/ask] with no
    question mark; and whatever the parameters, the query string it
    builds holds no slash, question mark, hash or space. *)
Theorem ask_endpoint_skips_undefined (params : option AskRequest) :
  (forall before after key,
     buildQueryParams (before ++ (key, None) :: after)
       = buildQueryParams (before ++ after)) /\
  ask_endpoint None = "/ask" /\
  ask_endpoint
    (Some {| context_type := None; ask_query := None;
             score_ratio := None; max_results := None |}) = "/ask" /\
  (ask_endpoint params = "/ask" \/
   exists queryString,
     ask_endpoint params = "/ask?" +:+ queryString /\
     string_forall (fun c => negb (char_in c "/?# ")) queryString = true).
Proof.
  split; [| split; [reflexivity | split; [reflexivity |]]].
  - intros before after key. unfold buildQueryParams.
    rewrite defined_entries_skip. reflexivity.
  - unfold ask_endpoint.
    set (queryString := buildQueryParams _).
    destruct (Js.truthy_str queryString); [right | left; reflexivity].
    exists queryString. split; [reflexivity |].
    apply (string_forall_weaken query_safe);
      [| apply searchParams_toString_safe].
    intros c Hc. rewrite (query_safe_not_delimiter c Hc). reflexivity.
Qed.

(** X27: [ask] takes its results from [doc_results] whenever that is an
    array, also an empty one, whatever [code_results] and [all_results]
    hold; it counts the elements of the array it took and sets the type
    to the requested context type, [doc] by default.  An answer that is
    an object with none of the three keys gives an empty context and a
    count of zero. *)
Theorem ask_prefers_doc_results (params : option AskRequest)
    (props : gmap string json) :
  (forall docs texts,
     props !! "doc_results" = Some (JArr docs) ->
     map_text docs = Normal texts ->
     exists answer,
       ask_result params (VData (DJson (JObj props))) = Normal answer /\
       results_count answer = Z.of_nat (length docs) /\
       query answer = params ≫= ask_query /\
       context answer =
         join_strings (String StreamDecoder.LF (String StreamDecoder.LF ""))
           (join_element <$> texts)) /\
  (props !! "doc_results" = None ->
   props !! "code_results" = None ->
   props !! "all_results" = None ->
   exists answer,
     ask_result params (VData (DJson (JObj props))) = Normal answer /\
     results_count answer = 0 /\ context answer = "" /\
     (params = None -> ask_type answer = "doc")).
Proof.
  split.
  - intros docs texts Hdoc Htexts.
    unfold ask_result. cbn [read_property Js.get]. rewrite Hdoc.
    unfold or_else at 1. cbn [Js.truthy_opt Js.truthy]. rewrite Htexts.
    eexists. split; [reflexivity |]. repeat split.
  - intros Hdoc Hcode Hall.
    unfold ask_result. cbn [read_property Js.get].
    rewrite Hdoc, Hcode, Hall. cbn.
    eexists. split; [reflexivity |]. repeat split.
    intros ->. reflexivity.
Qed.

(** The same theorem at an answer whose [doc_results] is empty and whose
    [code_results] is not. *)
Lemma ask_prefers_doc_results_witness :
  exists answer,
    ask_result None
      (VData (DJson (JObj {[ "doc_results" := JArr [];
                             "code_results" :=
                               JArr [JObj {[ "text" := JStr "snippet" ]}] ]})))
      = Normal answer /\
    results_count answer = 0.
Proof.
  destruct (proj1 (ask_prefers_doc_results None
                     {[ "doc_results" := JArr [];
                        "code_results" :=
                          JArr [JObj {[ "text" := JStr "snippet" ]}] ]})
              [] [])
    as (answer & Hanswer & Hcount & _).
  - vm_compute. reflexivity.
  - reflexivity.
  - exists answer. split; [exact Hanswer | exact Hcount].
Defined.

(** The same theorem at a page URL with a path and a query of its own. *)
Lemma llm_endpoint_is_well_formed_witness :
  llm_endpoint "https://example.com/a b?x=1" "what is 1+1?"
    = "/llm/https%3A%2F%2Fexample.com%2Fa%20b%3Fx%3D1?q=what+is+1%2B1%3F".
Proof.
  rewrite (proj1 (llm_endpoint_is_well_formed "https://example.com/a b?x=1"
                    "what is 1+1?")).
  vm_compute. reflexivity.
Defined.

(** The same theorem at a request that names a query and a result limit. *)
Lemma ask_endpoint_skips_undefined_witness :
  ask_endpoint
    (Some {| context_type := None; ask_query := Some "css & xpath";
             score_ratio := None; max_results := Some 5 |})
    = "/ask?query=css+%26+xpath&max_results=5".
Proof.
  destruct (proj2 (proj2 (proj2 (ask_endpoint_skips_undefined
              (Some {| context_type := None; ask_query := Some "css & xpath";
                       score_ratio := None; max_results := Some 5 |})))))
    as [Hnone | (queryString & Hsome & _)].
  - vm_compute in Hnone. discriminate Hnone.
  - vm_compute. reflexivity.
Defined.

Example js_String_nested_array :
  js_String (JArr [JNum 1; JNull; JArr [JStr "a"; JBool true]; JObj ∅])
    = "1,,a,true,[object Object]".
Proof. vm_compute. reflexivity. Qed.

Example ask_joins_texts :
  context <$>
    (match ask_result None
             (VData (DJson (JObj {[ "all_results" :=
                JArr [JObj {[ "text" := JStr "one" ]};
                      JObj {[ "score" := JNum 1 ]};
                      JObj {[ "text" := JStr "two" ]}] ]}))) with
     | Normal answer => Some answer
     | Abrupt _ => None
     end)
  = Some ("one" +:+ String StreamDecoder.LF (String StreamDecoder.LF "")
            +:+ String StreamDecoder.LF (String StreamDecoder.LF "") +:+ "two").
Proof. vm_compute. reflexivity. Qed.
